(** * BuiltWith MCP gateway (bw-mcp-v1.js): shallow embedding and properties

    The development follows the layout of the source file:
    - [Js]: the fragment of JavaScript values and built-ins the program uses;
    - [Config]: the constants read from the process environment;
    - [Http]: [validateOrigin] and [extractBearerApiKeyOptional];
    - [Upstream]: [getCurrentApiKey], [requestBuiltWithJson] and the handlers,
      written once over a small effect type and given two interpreters
      (one request alone, and the interleaving event loop);
    - [Registry]: [zodSchemaToJson], the tool and prompt registrations;
    - [Server]: the Express routes of [startHttp] and the event loop;
    - [Spec]: the properties in the words of the specification, and the
      invariants of the proofs;
    - [Examples]: sample configurations, requests and upstream answers.
    The lemmas follow, grouped by topic; C1 to C10 name the claims.

    Strings are sequences of code units below 256: Node decodes header bytes
    as Latin-1, and no operation of the program depends on wider units. *)

From Stdlib Require Import String Ascii List ZArith Bool Lia DecimalString.
Import ListNotations.
Open Scope string_scope.

#[local] Set Warnings "-register-all".

(* ===================================================================== *)
(** ** JavaScript values and built-ins *)
(* ===================================================================== *)

Module Js.

(** JSON-like values.  Numbers are kept to the integers: the program
    only tests them for truthiness and prints status codes.  An object is
    the list of its own enumerable properties in [Object.entries] order. *)
Inductive value : Type :=
| Undefined
| Null
| Bool (b : bool)
| Num (n : Z)
| Str (s : string)
| Arr (items : list value)
| Obj (props : list (string * value)).

(** ToBoolean. *)
Definition truthy (v : value) : bool :=
  match v with
  | Undefined | Null => false
  | Bool b => b
  | Num n => negb (Z.eqb n 0)
  | Str s => negb (String.eqb s EmptyString)
  | Arr _ | Obj _ => true
  end.

(** [a || b]. *)
Definition or_else (a b : value) : value := if truthy a then a else b.

Fixpoint lookup {A : Type} (k : string) (props : list (string * A)) : option A :=
  match props with
  | [] => None
  | (k', v) :: rest => if String.eqb k' k then Some v else lookup k rest
  end.

(** [v?.k] for a property name [k] that no prototype defines (the program
    reads Results, Result, Paths, Technologies, Name, Description, Tag, Link,
    domain, liveOnly, lookup, company, tech, query).  The program applies
    plain [v.k] only to receivers it has tested truthy, where it agrees. *)
Definition member (v : value) (k : string) : value :=
  match v with
  | Obj props => match lookup k props with Some x => x | None => Undefined end
  | _ => Undefined
  end.

(** [v?.[0]]: first element of an array, first code unit of a string,
    property "0" of an object. *)
Definition index0 (v : value) : value :=
  match v with
  | Arr (x :: _) => x
  | Str (String c _) => Str (String c EmptyString)
  | Obj props => match lookup "0" props with Some x => x | None => Undefined end
  | _ => Undefined
  end.

Definition isArray (v : value) : bool :=
  match v with Arr _ => true | _ => false end.

(** [a === b] against a boolean literal. *)
Definition strict_eq_bool (v : value) (b : bool) : bool :=
  match v with Bool b' => Bool.eqb b' b | _ => false end.

Definition Z_to_string (n : Z) : string := NilEmpty.string_of_int (Z.to_int n).

(** [String(v)]. *)
Fixpoint toString (v : value) : string :=
  match v with
  | Undefined => "undefined"
  | Null => "null"
  | Bool b => if b then "true" else "false"
  | Num n => Z_to_string n
  | Str s => s
  | Arr items =>
      (fix join (l : list value) (first : bool) : string :=
         match l with
         | [] => EmptyString
         | x :: r =>
             (if first then EmptyString else ",")
             ++ (match x with Undefined | Null => EmptyString | _ => toString x end)
             ++ join r false
         end) items true
  | Obj _ => "[object Object]"
  end.

(** *** Characters *)

(** WhiteSpace and LineTerminator code units below 256: TAB, LF, VT, FF, CR,
    SPACE, NBSP.  This is the class [\s] and what [trim] strips. *)
Definition isWhiteSpace (c : ascii) : bool :=
  let n := nat_of_ascii c in
  ((9 <=? n) && (n <=? 13))%nat || (n =? 32)%nat || (n =? 160)%nat.

(** LineTerminator code units below 256: LF and CR.  The class [.] is its
    complement. *)
Definition isLineTerminator (c : ascii) : bool :=
  let n := nat_of_ascii c in (n =? 10)%nat || (n =? 13)%nat.

Definition lowerChar (c : ascii) : ascii :=
  let n := nat_of_ascii c in
  if ((65 <=? n) && (n <=? 90))%nat then ascii_of_nat (n + 32) else c.

(** [s.toLowerCase()] on the ASCII letters. *)
Fixpoint toLowerCase (s : string) : string :=
  match s with
  | EmptyString => EmptyString
  | String c r => String (lowerChar c) (toLowerCase r)
  end.

Fixpoint forallb_string (p : ascii -> bool) (s : string) : bool :=
  match s with
  | EmptyString => true
  | String c r => p c && forallb_string p r
  end.

Fixpoint trimStart (s : string) : string :=
  match s with
  | EmptyString => EmptyString
  | String c r => if isWhiteSpace c then trimStart r else s
  end.

Fixpoint trimEnd (s : string) : string :=
  match s with
  | EmptyString => EmptyString
  | String c r =>
      match trimEnd r with
      | EmptyString => if isWhiteSpace c then EmptyString else String c EmptyString
      | r' => String c r'
      end
  end.

(** [s.trim()]. *)
Definition trim (s : string) : string := trimEnd (trimStart s).

(** [s.split(",")]. *)
Fixpoint split_comma (s : string) : list string :=
  match s with
  | EmptyString => [EmptyString]
  | String c r =>
      if Ascii.eqb c ","%char then EmptyString :: split_comma r
      else match split_comma r with
           | [] => [String c EmptyString]
           | w :: ws => String c w :: ws
           end
  end.

Fixpoint dropn (n : nat) (s : string) : string :=
  match n, s with
  | O, _ => s
  | S n', String _ r => dropn n' r
  | S _, EmptyString => EmptyString
  end.

(** [s.replace(pat, empty)] for a string pattern: removes the first
    occurrence. *)
Fixpoint remove_first (pat s : string) : string :=
  if String.prefix pat s then dropn (String.length pat) s
  else match s with
       | EmptyString => EmptyString
       | String c r => String c (remove_first pat r)
       end.

(** *** JSON.stringify *)

Definition hexDigit (n : nat) : ascii :=
  if (n <? 10)%nat then ascii_of_nat (48 + n) else ascii_of_nat (87 + n).

Definition dquote : string := String (ascii_of_nat 34) EmptyString.

Definition quoteChar (c : ascii) : string :=
  let n := nat_of_ascii c in
  if (n =? 34)%nat then "\" ++ dquote
  else if (n =? 92)%nat then "\\"
  else if (n =? 8)%nat then "\b"
  else if (n =? 9)%nat then "\t"
  else if (n =? 10)%nat then "\n"
  else if (n =? 12)%nat then "\f"
  else if (n =? 13)%nat then "\r"
  else if (n <? 32)%nat then
    "\u00" ++ String (hexDigit (n / 16)) (String (hexDigit (n mod 16)) EmptyString)
  else String c EmptyString.

Fixpoint quoteBody (s : string) : string :=
  match s with
  | EmptyString => EmptyString
  | String c r => quoteChar c ++ quoteBody r
  end.

Definition quote (s : string) : string := dquote ++ quoteBody s ++ dquote.

(** [JSON.stringify(v)]: [None] stands for the result [undefined].
    Properties holding [undefined] are left out, array holes print as null. *)
Fixpoint stringify (v : value) : option string :=
  match v with
  | Undefined => None
  | Null => Some "null"
  | Bool b => Some (if b then "true" else "false")
  | Num n => Some (Z_to_string n)
  | Str s => Some (quote s)
  | Arr items =>
      Some ("[" ++
        (fix elems (l : list value) (first : bool) : string :=
           match l with
           | [] => EmptyString
           | x :: r =>
               (if first then EmptyString else ",")
               ++ (match stringify x with Some t => t | None => "null" end)
               ++ elems r false
           end) items true
        ++ "]")
  | Obj props =>
      Some ("{" ++
        (fix members (l : list (string * value)) (first : bool) : string :=
           match l with
           | [] => EmptyString
           | (k, x) :: r =>
               match stringify x with
               | Some t => (if first then EmptyString else ",") ++ quote k ++ ":" ++ t ++ members r false
               | None => members r first
               end
           end) props true
        ++ "}")
  end.

End Js.

(* ===================================================================== *)
(** ** Configuration read from the environment (lines 14-22) *)
(* ===================================================================== *)

Module Config.

(** [process.env]: each variable is unset or a string. *)
Record Env : Type := {
  env_BUILTWITH_API_KEY : option string;
  env_BUILTWITH_API_HOSTNAME : option string;
  env_MCP_ALLOWED_ORIGINS : option string
}.

(** [e || d] for an environment variable: unset and empty both give [d]. *)
Definition env_or {A : Type} (e : option string) (f : string -> A) (d : A) : A :=
  match e with
  | Some (String c r) => f (String c r)
  | _ => d
  end.

Definition nonEmpty (s : string) : bool :=
  match s with EmptyString => false | _ => true end.

Record t : Type := {
  BUILTWITH_API_KEY : option string;       (* string | null *)
  BUILTWITH_API_HOSTNAME : string;
  MCP_ALLOWED_ORIGINS : list string
}.

Definition load (env : Env) : t :=
  {| BUILTWITH_API_KEY := env_or (env_BUILTWITH_API_KEY env) Some None;
     BUILTWITH_API_HOSTNAME :=
       env_or (env_BUILTWITH_API_HOSTNAME env) (fun s => s) "api.builtwith.com";
     MCP_ALLOWED_ORIGINS :=
       filter nonEmpty
         (map Js.trim
            (Js.split_comma (env_or (env_MCP_ALLOWED_ORIGINS env) (fun s => s) EmptyString))) |}.

End Config.

(* ===================================================================== *)
(** ** Request screening (lines 34-58) *)
(* ===================================================================== *)

Module Http.

Inductive Method : Type := GET | HEAD | POST | DELETE | PUT | OPTIONS.

(** The part of an Express request the program reads.  A header is absent
    ([undefined]) or a string; [call] is the JSON-RPC tool call carried by
    the body, when the message is one: tool name and input object.  A body
    that batches several messages is outside this record. *)
Record Request : Type := {
  method : Method;
  path : string;
  origin : option string;
  authorization : option string;
  call : option (string * Js.value)
}.

(** What [validateOrigin] does to [res] together with what it returns. *)
Inductive OriginVerdict : Type :=
| OriginAdmitted                                   (* return true *)
| OriginRejected (status : Z) (body : Js.value).   (* res.status(403).json(..); return false *)

Definition includes (l : list string) (s : string) : bool :=
  existsb (String.eqb s) l.

Definition validateOrigin (cfg : Config.t) (req : Request) : OriginVerdict :=
  match Config.MCP_ALLOWED_ORIGINS cfg with
  | [] => OriginAdmitted
  | allowed =>
      match origin req with
      | None => OriginAdmitted
      | Some EmptyString => OriginAdmitted            (* !origin holds of the empty string *)
      | Some o =>
          if negb (includes allowed o)
          then OriginRejected 403 (Js.Obj [("error", Js.Str "Forbidden origin")])
          else OriginAdmitted
      end
  end.

(** *** The pattern [/^Bearer\s+(.+)$/i]

    A backtracking matcher for this pattern, one function per piece.  Case
    folding touches ASCII letters only (no code unit above 127 folds to one). *)

(** [(.+)$]: one or more code units that are not line terminators, up to the
    end of the input; the capture is the whole remaining input. *)
Definition dot_plus_end (s : string) : option string :=
  match s with
  | EmptyString => None
  | _ => if Js.forallb_string (fun c => negb (Js.isLineTerminator c)) s then Some s else None
  end.

(** [\s*] greedy, followed by [(.+)$]: take one more white space when the
    rest then matches, give it back otherwise. *)
Fixpoint space_star_then (s : string) : option string :=
  match s with
  | String c r =>
      if Js.isWhiteSpace c then
        match space_star_then r with
        | Some m => Some m
        | None => dot_plus_end s
        end
      else dot_plus_end s
  | EmptyString => dot_plus_end s
  end.

(** [\s+(.+)$]. *)
Definition space_plus_then (s : string) : option string :=
  match s with
  | String c r => if Js.isWhiteSpace c then space_star_then r else None
  | EmptyString => None
  end.

(** [/^Bearer\s+(.+)$/i.exec(header)]: the first capture group, when the
    pattern matches. *)
Definition exec_bearer (header : string) : option string :=
  if String.eqb (Js.toLowerCase (String.substring 0 6 header)) "bearer"
  then space_plus_then (Js.dropn 6 header)
  else None.

Definition extractBearerApiKeyOptional (req : Request) : option string :=
  let header := match authorization req with
                | Some (String c r) => String c r
                | _ => EmptyString
                end in
  match exec_bearer header with
  | None => None
  | Some m1 =>
      let apiKey := Js.trim m1 in
      if ((String.length apiKey <? 10) || (256 <? String.length apiKey))%nat then None
      else Some apiKey
  end.

End Http.

(* ===================================================================== *)
(** ** Effects of the asynchronous code *)
(* ===================================================================== *)

Module Async.

(** The per-request store handed to [als.run]: [{ apiKey }], a string or null. *)
Record Store : Type := { apiKey : option string }.

(** A [URL] object: what was given to the constructor, and its
    [searchParams] as the ordered list of name-value pairs. *)
Record Url : Type := {
  href : string;
  searchParams : list (string * string)
}.

(** A thrown error: its [message] property and what [String(error)] gives. *)
Record JsError : Type := { message : Js.value; error_string : string }.

(** How [fetch(url)] settles: rejected, or a response with its status and
    the outcome of [response.json()] ([None] when the body is not JSON). *)
Inductive FetchOutcome : Type :=
| FetchRejected (error : JsError)
| FetchResolved (status : Z) (json : option Js.value).

(** What a run leaves behind, in order. *)
Inductive Event : Type :=
| EvFetch (url : Url)                       (* a network call is issued *)
| EvLookup (name : string)                  (* the registry is asked for a tool *)
| EvToolResult (result : Js.value)          (* a tool callback returned *)
| EvUnknownTool (name : string)
| EvRespond (status : Z) (body : Js.value). (* res.status(..).json(..) *)

(** Programs over the effects of the source: reading the AsyncLocalStorage
    store (synchronous), awaiting [fetch], awaiting a promise that involves no
    further input, and leaving an event. *)
Inductive t (A : Type) : Type :=
| Return (a : A)
| AlsGetStore (k : option Store -> t A)
| AwaitFetch (url : Url) (k : FetchOutcome -> t A)
| Await (k : t A)
| Emit (e : Event) (k : t A).

Arguments Return {A} a.
Arguments AlsGetStore {A} k.
Arguments AwaitFetch {A} url k.
Arguments Await {A} k.
Arguments Emit {A} e k.

Fixpoint bind {A B : Type} (m : t A) (f : A -> t B) : t B :=
  match m with
  | Return a => f a
  | AlsGetStore k => AlsGetStore (fun s => bind (k s) f)
  | AwaitFetch url k => AwaitFetch url (fun o => bind (k o) f)
  | Await k => Await (bind k f)
  | Emit e k => Emit e (bind k f)
  end.

Notation "x <- m ;; k" := (bind m (fun x => k))
  (at level 61, m at next level, right associativity).

(** *** One operation alone

    The operation runs to completion inside [als.run(store, ..)]; [net] tells
    how each network call settles. *)
Fixpoint run {A : Type} (net : Url -> FetchOutcome) (store : option Store)
    (m : t A) : A * list Event :=
  match m with
  | Return a => (a, [])
  | AlsGetStore k => run net store (k store)
  | AwaitFetch url k =>
      let (a, tr) := run net store (k (net url)) in (a, EvFetch url :: tr)
  | Await k => run net store k
  | Emit e k => let (a, tr) := run net store k in (a, e :: tr)
  end.

End Async.

(* ===================================================================== *)
(** ** Upstream client and response shaping (lines 30-32, 60-148) *)
(* ===================================================================== *)

Module Upstream.
Import Js Async.

(** [{ ok: true, data }] or [{ ok: false, error }]. *)
Inductive Result : Type :=
| Ok (data : value)
| Failed (error : value).

Definition text_of (payload : value) : value :=
  match stringify payload with Some s => Str s | None => Undefined end.

Definition buildResponse (payload : value) : value :=
  Obj [("content", Arr [Obj [("type", Str "text"); ("text", text_of payload)]])].

(** [store?.apiKey || BUILTWITH_API_KEY] *)
Definition currentApiKey (cfg : Config.t) (store : option Store) : option string :=
  match store with
  | Some {| apiKey := Some (String c r) |} => Some (String c r)
  | _ => Config.BUILTWITH_API_KEY cfg
  end.

Definition getCurrentApiKey (cfg : Config.t) : Async.t (option string) :=
  AlsGetStore (fun store => Return (currentApiKey cfg store)).

Definition indices (n : nat) : list string :=
  map (fun i => Z_to_string (Z.of_nat i)) (seq 0 n).

(** [Object.entries(o)]: the properties of an object; an array and a string
    enumerate their indices; other primitives have none. *)
Definition Object_entries (o : value) : list (string * value) :=
  match o with
  | Obj props => props
  | Arr items => combine (indices (length items)) items
  | Str s =>
      combine (indices (String.length s))
        (map (fun c => Str (String c EmptyString)) (list_ascii_of_string s))
  | _ => []
  end.

(** [searchParams.set(name, v)]: overwrite the first pair of that name and
    drop the others, or append. *)
Fixpoint searchParams_set (name v : string) (q : list (string * string))
    : list (string * string) :=
  match q with
  | [] => [(name, v)]
  | (n, v') :: rest =>
      if String.eqb n name
      then (name, v) :: filter (fun p => negb (String.eqb (fst p) name)) rest
      else (n, v') :: searchParams_set name v rest
  end.

Definition url_set (name v : string) (u : Url) : Url :=
  {| href := href u; searchParams := searchParams_set name v (searchParams u) |}.

(** The guard of the parameter loop. *)
Definition sendable (v : value) : bool :=
  match v with
  | Undefined | Null => false
  | _ => (0 <? String.length (toString v))%nat
  end.

(** The body of the parameter loop (lines 75-79). *)
Definition add_param (url : Url) (kv : string * value) : Url :=
  if sendable (snd kv) then url_set (fst kv) (toString (snd kv)) url else url.

Definition is_ok (status : Z) : bool := ((200 <=? status) && (status <=? 299))%Z.

Definition authMissing : value := Obj [("error", Str "Missing BuiltWith API key.")].

(** Lines 72-79: the URL with the credential and the parameters to send. *)
Definition request_url (cfg : Config.t) (key path : string) (params : value) : Url :=
  let url := {| href := "https://" ++ Config.BUILTWITH_API_HOSTNAME cfg ++ "/" ++ path;
                searchParams := [] |} in
  let url := url_set "KEY" key url in
  fold_left add_param (Object_entries (or_else params (Obj []))) url.

(** Lines 84-118: what becomes of the settled [fetch]. *)
Definition read_response (outcome : FetchOutcome) : Async.t Result :=
  match outcome with
  | FetchRejected error =>
      Return (Failed (Obj [("error", Str "Failed to reach BuiltWith API.");
                           ("details", or_else (message error) (Str (error_string error)))]))
  | FetchResolved status json =>
      Await
        match json with
        | None =>
            Return (Failed (Obj [("error", Str "BuiltWith API did not return JSON.");
                                 ("status", Num status)]))
        | Some data =>
            if negb (is_ok status)
            then Return (Failed (Obj [("error", Str "BuiltWith API error.");
                                      ("status", Num status);
                                      ("data", data)]))
            else Return (Ok data)
        end
  end.

Definition requestBuiltWithJson (cfg : Config.t) (path : string) (params : value)
    : Async.t Result :=
  apiKey <- getCurrentApiKey cfg ;;
  match apiKey with
  | None | Some EmptyString => Return (Failed authMissing)
  | Some key => AwaitFetch (request_url cfg key path params) read_response
  end.

Definition handleBuiltWithJson (cfg : Config.t) (path : string) (params : value)
    : Async.t value :=
  result <- requestBuiltWithJson cfg path params ;;
  match result with
  | Failed error => Return (buildResponse error)
  | Ok data => Return (buildResponse data)
  end.

(** [extracted.push({ Name: tech.Name || empty, ... })] *)
Definition push_technology (extracted : list value) (tech : value) : list value :=
  (extracted ++
   [Obj [("Name", or_else (member tech "Name") (Str EmptyString));
         ("Description", or_else (member tech "Description") (Str EmptyString));
         ("Tag", or_else (member tech "Tag") (Str EmptyString));
         ("Link", or_else (member tech "Link") (Str EmptyString))]])%list.

(** The two nested [for .. of] loops thread the array [extracted]. *)
Definition extractTechnologies (data : value) : list value :=
  let extracted := [] in
  let paths := member (member (index0 (member data "Results")) "Result") "Paths" in
  match paths with
  | Arr ps =>
      fold_left
        (fun extracted p =>
           match member p "Technologies" with
           | Arr technologies =>
               fold_left
                 (fun extracted tech =>
                    if negb (truthy tech) then extracted
                    else push_technology extracted tech)
                 technologies extracted
           | _ => extracted
           end)
        ps extracted
  | _ => extracted
  end.

Definition noTechnologies : value := Obj [("error", Str "No technologies found")].

(** The parameters [domain-lookup] sends (lines 299-303), from the
    destructured input [{ domain, liveOnly }]. *)
Definition domainLookupParams (input : value) : value :=
  let domain := member input "domain" in
  let liveOnly := member input "liveOnly" in
  Obj [("LOOKUP", domain);
       ("LIVEONLY", if strict_eq_bool liveOnly false then Undefined else Str "yes")].

(** The callback registered for [domain-lookup] (lines 299-311). *)
Definition domainLookup (cfg : Config.t) (input : value) : Async.t value :=
  result <- requestBuiltWithJson cfg "v22/api.json" (domainLookupParams input) ;;
  match result with
  | Failed error => Return (buildResponse error)
  | Ok data =>
      let extracted := extractTechnologies data in
      if (length extracted =? 0)%nat then Return (buildResponse noTechnologies)
      else Return (buildResponse (Arr extracted))
  end.

End Upstream.

(* ===================================================================== *)
(** ** Catalogs and registration (lines 27-28, 150-405) *)
(* ===================================================================== *)

Module Registry.
Import Js Async Upstream.

(** The zod schema objects the program builds, as far as [zodSchemaToJson]
    looks into them: [_def.typeName], [_def.innerType] and [isOptional()]. *)
Inductive ZodType : Type :=
| ZodString
| ZodBoolean
| ZodNumber
| ZodOptional (innerType : ZodType)     (* t.optional() *)
| ZodNullable (innerType : ZodType).    (* t.nullable() *)

Definition typeName (z : ZodType) : string :=
  match z with
  | ZodString => "ZodString"
  | ZodBoolean => "ZodBoolean"
  | ZodNumber => "ZodNumber"
  | ZodOptional _ => "ZodOptional"
  | ZodNullable _ => "ZodNullable"
  end.

Definition def_innerType (z : ZodType) : option ZodType :=
  match z with
  | ZodOptional i | ZodNullable i => Some i
  | _ => None
  end.

(** [z.isOptional()]: does the type accept [undefined]. *)
Fixpoint isOptional (z : ZodType) : bool :=
  match z with
  | ZodOptional _ => true
  | ZodNullable i => isOptional i
  | _ => false
  end.

(** A value of the schema object: a zod type, or anything without [_def]. *)
Inductive SchemaField : Type :=
| Zod (z : ZodType)
| NotZod.

Definition Schema : Type := list (string * SchemaField).

(** [out[key] = v] *)
Fixpoint obj_set (key : string) (v : value) (props : list (string * value))
    : list (string * value) :=
  match props with
  | [] => [(key, v)]
  | (k, x) :: rest =>
      if String.eqb k key then (k, v) :: rest else (k, x) :: obj_set key v rest
  end.

Definition render_field (val : SchemaField) : string :=
  match val with
  | Zod z =>
      let inner :=
        match def_innerType z with
        | Some i => typeName i           (* type names are never empty *)
        | None => typeName z
        end in
      let type := toLowerCase (remove_first "Zod" inner) in
      let optional := String.eqb (typeName z) "ZodOptional" || isOptional z in
      if optional then type ++ " (optional)" else type
  | NotZod => "string"
  end.

(** [schema] is [None] when it is falsy or not an object. *)
Definition zodSchemaToJson (schema : option Schema) : value :=
  match schema with
  | None => Obj []
  | Some fields =>
      Obj (fold_left (fun out kv => obj_set (fst kv) (Str (render_field (snd kv))) out)
             fields [])
  end.

(** A [server.tool(name, description, schema, callback)] registration. *)
Record Tool : Type := {
  tool_name : string;
  tool_description : string;
  tool_schema : Schema;
  tool_callback : value -> Async.t value
}.

(** The module-level arrays and what the shared [server] has registered.
    The prompt templates given to [server.prompt] are text generators and
    are left out; their catalog entries are kept. *)
Record State : Type := {
  toolCatalog : list value;
  promptCatalog : list value;
  server_tools : list Tool
}.

Definition initial : State :=
  {| toolCatalog := []; promptCatalog := []; server_tools := [] |}.

Definition catalog_push (entry : value) (st : State) : State :=
  {| toolCatalog := toolCatalog st ++ [entry];
     promptCatalog := promptCatalog st;
     server_tools := server_tools st |}.

Definition server_tool (t : Tool) (st : State) : State :=
  {| toolCatalog := toolCatalog st;
     promptCatalog := promptCatalog st;
     server_tools := server_tools st ++ [t] |}.

Definition entry (name description : string) (parameters : value) : value :=
  Obj [("name", Str name); ("description", Str description); ("parameters", parameters)].

Definition registerJsonTool (cfg : Config.t) (name description : string)
    (schema : Schema) (path : string) (buildParams : value -> value) (st : State) : State :=
  let st := catalog_push (entry name description (zodSchemaToJson (Some schema))) st in
  server_tool {| tool_name := name; tool_description := description; tool_schema := schema;
                 tool_callback := fun input => handleBuiltWithJson cfg path (buildParams input) |}
    st.

(** [({ field }) => ({ KEY: field })] *)
Definition pick (field KEY : string) (input : value) : value :=
  Obj [(KEY, member input field)].

Definition registerTools (cfg : Config.t) (st : State) : State :=
  let st :=
    catalog_push
      (entry "domain-lookup"
         "Returns the live web technologies used on the root domain name."
         (Obj [("domain", Str "string"); ("liveOnly", Str "boolean (optional)")])) st in
  let st :=
    server_tool
      {| tool_name := "domain-lookup";
         tool_description := "Returns the live web technologies used on the root domain name.";
         tool_schema := [("domain", Zod ZodString); ("liveOnly", Zod (ZodOptional ZodBoolean))];
         tool_callback := domainLookup cfg |} st in
  let st := registerJsonTool cfg "domain-api"
    "Domain API JSON lookup for technology and metadata by domain."
    [("lookup", Zod ZodString)] "v22/api.json" (pick "lookup" "LOOKUP") st in
  let st := registerJsonTool cfg "relationships-api"
    "Relationships API JSON lookup for related websites by domain."
    [("lookup", Zod ZodString)] "rv4/api.json" (pick "lookup" "LOOKUP") st in
  let st := registerJsonTool cfg "free-api"
    "Free API JSON lookup for category/group counts by domain."
    [("lookup", Zod ZodString)] "free1/api.json" (pick "lookup" "LOOKUP") st in
  let st := registerJsonTool cfg "company-to-url"
    "Company to URL API JSON lookup for domains from a company name."
    [("company", Zod ZodString)] "ctu3/api.json" (pick "company" "COMPANY") st in
  let st := registerJsonTool cfg "tags-api"
    "Tags API JSON lookup for related domains from IP or attributes."
    [("lookup", Zod ZodString)] "tag1/api.json" (pick "lookup" "LOOKUP") st in
  let st := registerJsonTool cfg "recommendations-api"
    "Recommendations API JSON lookup for technology recommendations by domain."
    [("lookup", Zod ZodString)] "rec1/api.json" (pick "lookup" "LOOKUP") st in
  let st := registerJsonTool cfg "redirects-api"
    "Redirects API JSON lookup for live and historical redirects by domain."
    [("lookup", Zod ZodString)] "redirect1/api.json" (pick "lookup" "LOOKUP") st in
  let st := registerJsonTool cfg "keywords-api"
    "Keywords API JSON lookup for keyword data by domain."
    [("lookup", Zod ZodString)] "kw2/api.json" (pick "lookup" "LOOKUP") st in
  let st := registerJsonTool cfg "trends-api"
    "Trends API JSON lookup for technology trend data."
    [("tech", Zod ZodString)] "trends/v6/api.json" (pick "tech" "TECH") st in
  let st := registerJsonTool cfg "product-api"
    "Product API JSON lookup for ecommerce product searches."
    [("query", Zod ZodString)] "productv1/api.json" (pick "query" "QUERY") st in
  let st := registerJsonTool cfg "trust-api"
    "Trust API JSON lookup for trust scoring by domain."
    [("lookup", Zod ZodString)] "trustv1/api.json" (pick "lookup" "LOOKUP") st in
  let st := registerJsonTool cfg "financial-api"
    "Financial API JSON lookup for financial data by domain."
    [("lookup", Zod ZodString)] "financial1/api.json" (pick "lookup" "LOOKUP") st in
  registerJsonTool cfg "social-api"
    "Social API JSON lookup for domains related to social profiles."
    [("lookup", Zod ZodString)] "social1/api.json" (pick "lookup" "LOOKUP") st.

Definition registerPrompts (st : State) : State :=
  {| toolCatalog := toolCatalog st;
     promptCatalog :=
       promptCatalog st ++
       [entry "analyze-tech-stack" "Analyze the technology stack of a domain"
          (Obj [("domain", Str "string")]);
        entry "find-related-websites" "Find websites related to a domain"
          (Obj [("domain", Str "string")]);
        entry "get-technology-recommendations" "Get technology recommendations for a domain"
          (Obj [("domain", Str "string")]);
        entry "research-company" "Research a company's web presence by name"
          (Obj [("company", Str "string")]);
        entry "check-domain-trust" "Check the trust score of a domain"
          (Obj [("domain", Str "string")])];
     server_tools := server_tools st |}.

(** The state [main] reaches before it starts a transport. *)
Definition registered (cfg : Config.t) : State :=
  registerPrompts (registerTools cfg initial).

End Registry.

(* ===================================================================== *)
(** ** The HTTP transport (lines 412-459) *)
(* ===================================================================== *)

Module Server.
Import Js Async Upstream Registry Http.

(** The three code units the source file has between "Server" and
    "technology" in the description, as UTF-8 bytes. *)
Definition description_dash : string :=
  fold_right (fun n s => String (ascii_of_nat n) s) EmptyString
    [195; 162; 226; 130; 172; 226; 128; 157]%nat.

Definition discovery (st : State) : value :=
  Obj [("name", Str "builtwith");
       ("version", Str "1.2.0");
       ("description",
        Str ("BuiltWith MCP Server " ++ description_dash ++
             " technology lookup, trends, trust scores and more. https://api.builtwith.com/mcp is a valid MCP endpoint you are currently accessing it with a GET request."));
       ("authentication", Str "Pass your BuiltWith API key as Authorization: Bearer <key>");
       ("tools", Arr (toolCatalog st));
       ("prompts", Arr (promptCatalog st))].

(** *** Routing

    Express tries the routes in the order they were added; none of the
    handlers calls [next], so the first match answers.  A GET route also
    serves HEAD; matching ignores letter case and one trailing slash. *)
Inductive Handler : Type := DiscoveryHandler | McpHandler | HealthHandler.

Record Route : Type := {
  route_method : option Method;   (* None: app.all *)
  route_path : string;
  route_handler : Handler
}.

Definition routes : list Route :=
  [ {| route_method := Some GET; route_path := "/mcp"; route_handler := DiscoveryHandler |};
    {| route_method := None; route_path := "/mcp"; route_handler := McpHandler |};
    {| route_method := Some GET; route_path := "/health"; route_handler := HealthHandler |} ].

Definition method_eqb (a b : Method) : bool :=
  match a, b with
  | GET, GET | HEAD, HEAD | POST, POST | DELETE, DELETE | PUT, PUT | OPTIONS, OPTIONS => true
  | _, _ => false
  end.

Definition handles_method (r : Route) (m : Method) : bool :=
  match route_method r with
  | None => true
  | Some GET => method_eqb m GET || method_eqb m HEAD
  | Some m' => method_eqb m m'
  end.

Definition strip_slash (p : string) : string :=
  let n := String.length p in
  if ((1 <? n)%nat && String.eqb (String.substring (n - 1) 1 p) "/")%bool
  then String.substring 0 (n - 1) p else p.

Definition matches_path (r : Route) (p : string) : bool :=
  String.eqb (toLowerCase (strip_slash p)) (route_path r).

Definition dispatch (req : Request) : option Handler :=
  option_map route_handler
    (find (fun r => handles_method r (method req) && matches_path r (path req)) routes).

(** *** One MCP exchange

    The body of the function given to [als.run] (lines 433-450): connect the
    shared server to a fresh transport, let the transport read the message,
    and, for a tool call, look the tool up and run its callback.  The two
    awaits stand for [server.connect] and the reading inside
    [transport.handleRequest].  This is the exchange in which neither of
    the two throws; the catch clause that answers 500 (lines 446-448) is
    outside it. *)
Definition session (st : State) (req : Request) : Async.t unit :=
  Await
    (Await
       match call req with
       | None => Return tt
       | Some (name, input) =>
           Emit (EvLookup name)
             match find (fun t => String.eqb (tool_name t) name) (server_tools st) with
             | None => Emit (EvUnknownTool name) (Return tt)
             | Some t =>
                 result <- tool_callback t input ;;
                 Emit (EvToolResult result) (Return tt)
             end
       end).

(** *** The event loop

    Node keeps one current asynchronous context.  [als.run(store, f)] makes
    [store] current while [f] runs and puts the previous context back; a
    continuation suspended at an [await] keeps the context that was current
    when it was suspended, and that context is made current again for the
    time the continuation runs. *)
Record Task : Type := {
  task_request : nat;              (* which arrival this exchange serves *)
  task_context : option Store;     (* context captured at the suspension *)
  task_cont : Async.t unit         (* what remains, suspended at its head *)
}.

Record World : Type := {
  current : option Store;          (* the context als.getStore() reads *)
  tasks : list Task;
  arrived : list Request;
  log : list (nat * Event)         (* events, each with the arrival it belongs to *)
}.

Definition boot : World :=
  {| current := None; tasks := []; arrived := []; log := [] |}.

(** Run synchronously up to the next suspension, reading the store from the
    current context. *)
Fixpoint advance (cur : option Store) (rid : nat) (m : Async.t unit)
    : Async.t unit * list (nat * Event) :=
  match m with
  | Return a => (Return a, [])
  | AlsGetStore k => advance cur rid (k cur)
  | AwaitFetch url k => (AwaitFetch url k, [(rid, EvFetch url)])
  | Await k => (Await k, [])
  | Emit e k => let (m', evs) := advance cur rid k in (m', (rid, e) :: evs)
  end.

(** The awaited promise settles: what the continuation resumes with. *)
Definition settle (net : Url -> FetchOutcome) (m : Async.t unit) : option (Async.t unit) :=
  match m with
  | Return _ => None
  | AwaitFetch url k => Some (k (net url))
  | Await k => Some k
  | other => Some other
  end.

Definition with_current (c : option Store) (w : World) : World :=
  {| current := c; tasks := tasks w; arrived := arrived w; log := log w |}.

Fixpoint replace_nth {A : Type} (i : nat) (x : A) (l : list A) : list A :=
  match i, l with
  | _, [] => []
  | O, _ :: r => x :: r
  | S i', y :: r => y :: replace_nth i' x r
  end.

(** The synchronous part of the route handlers, for a request that arrives
    at the routes, that is, one the body parser of line 414 handed on. *)
Definition arrive (cfg : Config.t) (st : State) (w : World) (req : Request) : World :=
  let rid := length (arrived w) in
  let respond status body :=
    {| current := current w; tasks := tasks w;
       arrived := arrived w ++ [req];
       log := log w ++ [(rid, EvRespond status body)] |} in
  match dispatch req with
  | None => respond 404%Z Undefined
  | Some DiscoveryHandler => respond 200%Z (discovery st)
  | Some HealthHandler => respond 200%Z (Obj [("ok", Bool true)])
  | Some McpHandler =>
      match validateOrigin cfg req with
      | OriginRejected status body => respond status body
      | OriginAdmitted =>
          let apiKey := extractBearerApiKeyOptional req in
          let saved := current w in
          let inside := with_current (Some {| Async.apiKey := apiKey |}) w in
          let (cont, evs) := advance (current inside) rid (session st req) in
          {| current := saved;
             tasks := tasks w ++ [{| task_request := rid;
                                     task_context := current inside;
                                     task_cont := cont |}];
             arrived := arrived w ++ [req];
             log := log w ++ evs |}
      end
  end.

(** The promise task [i] waits for settles and its continuation runs. *)
Definition resume (net : Url -> FetchOutcome) (w : World) (i : nat) : World :=
  match nth_error (tasks w) i with
  | None => w
  | Some task =>
      match settle net (task_cont task) with
      | None => w
      | Some m =>
          let saved := current w in
          let inside := with_current (task_context task) w in
          let (cont, evs) := advance (current inside) (task_request task) m in
          {| current := saved;
             tasks := replace_nth i {| task_request := task_request task;
                                       task_context := current inside;
                                       task_cont := cont |} (tasks w);
             arrived := arrived w;
             log := log w ++ evs |}
      end
  end.

(** What the event loop does next is not up to the program. *)
Inductive Label : Type :=
| Arrive (req : Request)
| Resume (i : nat).

Definition step (cfg : Config.t) (st : State) (net : Url -> FetchOutcome)
    (w : World) (l : Label) : World :=
  match l with
  | Arrive req => arrive cfg st w req
  | Resume i => resume net w i
  end.

Definition exec (cfg : Config.t) (st : State) (net : Url -> FetchOutcome)
    (w : World) (schedule : list Label) : World :=
  fold_left (step cfg st net) schedule w.

(** The events of one arrival, in order. *)
Definition events_of (rid : nat) (w : World) : list Event :=
  map snd (filter (fun e => Nat.eqb (fst e) rid) (log w)).

End Server.

(* ===================================================================== *)
(** ** Specification-side definitions and invariants *)
(* ===================================================================== *)

Module Spec.
Import Js Async Upstream Registry Http Server.

(** *** Bearer credential *)

Definition in_range (s : string) : bool :=
  ((10 <=? String.length s) && (String.length s <=? 256))%nat.

(** The header value after the scheme prefix: what follows the word Bearer
    (in any letter case) and the white space after it. *)
Definition post_prefix (header : string) : option string :=
  if String.eqb (toLowerCase (String.substring 0 6 header)) "bearer" then
    match dropn 6 header with
    | String c r => if isWhiteSpace c then Some (trimStart r) else None
    | EmptyString => None
    end
  else None.

(** As the specification words it: the post-prefix value when its length is
    10 to 256, absent for every other header. *)
Definition bearer_as_specified (header : option string) : option string :=
  match header with
  | None => None
  | Some h =>
      match post_prefix h with
      | Some v => if in_range v then Some v else None
      | None => None
      end
  end.

(** What the code computes: the post-prefix value must hold no line break,
    loses its trailing white space, and is measured after that. *)
Definition bearer_credential (header : option string) : option string :=
  match header with
  | None => None
  | Some h =>
      match post_prefix h with
      | Some v =>
          if forallb_string (fun c => negb (isLineTerminator c)) v
          then (if in_range (trimEnd v) then Some (trimEnd v) else None)
          else None
      | None => None
      end
  end.

(** *** Flattening of technologies *)

Definition paths_of (data : value) : list value :=
  match member (member (index0 (member data "Results")) "Result") "Paths" with
  | Arr ps => ps
  | _ => []
  end.

Definition technologies_of (p : value) : list value :=
  match member p "Technologies" with
  | Arr ts => ts
  | _ => []
  end.

(** Every entry of every Technologies list, path after path. *)
Definition technology_entries (data : value) : list value :=
  flat_map technologies_of (paths_of data).

Definition flat_record (tech : value) : value :=
  Obj [("Name", or_else (member tech "Name") (Str EmptyString));
       ("Description", or_else (member tech "Description") (Str EmptyString));
       ("Tag", or_else (member tech "Tag") (Str EmptyString));
       ("Link", or_else (member tech "Link") (Str EmptyString))].

(** *** Query of an upstream call *)

Definition sent_pairs (props : list (string * value)) : list (string * string) :=
  map (fun kv => (fst kv, toString (snd kv)))
      (filter (fun kv => sendable (snd kv)) props).

(** *** Catalog entries *)

(** The type a schema field declares, under its wrappers. *)
Fixpoint declared_type (z : ZodType) : string :=
  match z with
  | ZodString => "string"
  | ZodBoolean => "boolean"
  | ZodNumber => "number"
  | ZodOptional i | ZodNullable i => declared_type i
  end.

Definition summary_of_field (f : SchemaField) : string :=
  match f with
  | Zod z => if isOptional z then declared_type z ++ " (optional)" else declared_type z
  | NotZod => "string"
  end.

(** The catalog entry a registration is to surface. *)
Definition summary_of (t : Tool) : value :=
  entry (tool_name t) (tool_description t)
    (Obj (map (fun kv => (fst kv, Str (summary_of_field (snd kv)))) (tool_schema t))).

(** The schema shapes the registered tools use: a base type, or one
    [optional()] around a base type. *)
Definition base_type (z : ZodType) : bool :=
  match z with ZodString | ZodBoolean | ZodNumber => true | _ => false end.

Definition plain_field (f : SchemaField) : bool :=
  match f with
  | Zod (ZodOptional i) => base_type i
  | Zod z => base_type z
  | NotZod => true
  end.

(** *** Credentials on the event loop *)

Definition is_fetch (e : Event) : bool :=
  match e with EvFetch _ => true | _ => false end.

(** Every network call the program [m] can issue, when the store it reads
    is [ctx], carries as KEY what [ctx] resolves to. *)
Inductive keyed (cfg : Config.t) (ctx : option Store) {A : Type} : Async.t A -> Prop :=
| keyed_return : forall a, keyed cfg ctx (Return a)
| keyed_get : forall k, keyed cfg ctx (k ctx) -> keyed cfg ctx (AlsGetStore k)
| keyed_fetch : forall url k,
    lookup "KEY" (searchParams url) = currentApiKey cfg ctx ->
    (forall o, keyed cfg ctx (k o)) ->
    keyed cfg ctx (AwaitFetch url k)
| keyed_await : forall k, keyed cfg ctx k -> keyed cfg ctx (Await k)
| keyed_emit : forall e k, is_fetch e = false -> keyed cfg ctx k -> keyed cfg ctx (Emit e k).

(** The store [app.all] builds for a request. *)
Definition store_of (req : Request) : option Store :=
  Some {| apiKey := extractBearerApiKeyOptional req |}.

Definition set_origin (o : option string) (req : Request) : Request :=
  {| method := method req; path := path req; origin := o;
     authorization := authorization req; call := call req |}.

(** *** Bookkeeping of the event loop *)

(** The shape of a step: what it adds to the log is tagged by a task that
    was there, or by the request that arrives. *)
Definition arrival_shape (w w' : World) (req : Request) : Prop :=
  arrived w' = (arrived w ++ [req])%list /\
  current w' = current w /\
  exists evs news,
    log w' = (log w ++ evs)%list /\
    tasks w' = (tasks w ++ news)%list /\
    (forall e, In e evs -> fst e = length (arrived w)) /\
    (forall t, In t news -> task_request t = length (arrived w)).

(** Tasks and log entries belong to requests that have arrived. *)
Definition bounded (w : World) : Prop :=
  (forall t, In t (tasks w) -> task_request t < length (arrived w)) /\
  (forall e, In e (log w) -> fst e < length (arrived w)).

(** Once nothing runs on behalf of arrival [rid], its events are final. *)
Definition settled (rid : nat) (evs : list Event) (w : World) : Prop :=
  rid < length (arrived w) /\
  (forall t, In t (tasks w) -> task_request t <> rid) /\
  events_of rid w = evs.

(** The invariant of the event loop for credentials: a suspended
    continuation holds the store of its own request, and every network call
    in the log carries what the store of the request it belongs to resolves
    to. *)
Definition credentialed (cfg : Config.t) (w : World) : Prop :=
  (forall task, In task (tasks w) ->
     exists req, nth_error (arrived w) (task_request task) = Some req /\
                 task_context task = store_of req /\
                 keyed cfg (task_context task) (task_cont task)) /\
  (forall rid url, In (rid, EvFetch url) (log w) ->
     exists req, nth_error (arrived w) rid = Some req /\
                 lookup "KEY" (searchParams url) = currentApiKey cfg (store_of req)).

End Spec.

(* ===================================================================== *)
(** ** Sample configurations, requests and upstream answers *)
(* ===================================================================== *)

Module Examples.
Import Js Async Upstream Registry Http Server.

(** No fallback key, one allowed origin. *)
Definition cfg : Config.t :=
  Config.load {| Config.env_BUILTWITH_API_KEY := None;
                 Config.env_BUILTWITH_API_HOSTNAME := None;
                 Config.env_MCP_ALLOWED_ORIGINS := Some "https://app.example" |}.

Definition lookup_call : option (string * value) :=
  Some ("domain-lookup", Obj [("domain", Str "example.com")]).

Definition post (o a : option string) : Request :=
  {| method := POST; path := "/mcp"; origin := o; authorization := a; call := lookup_call |}.

Definition alice : Request := post None (Some "Bearer alice-key-0001").
Definition bob : Request := post (Some "https://app.example") (Some "Bearer bob-key-000002").
Definition stranger : Request := post (Some "https://evil.example") (Some "Bearer alice-key-0001").
Definition blank_origin : Request := post (Some EmptyString) (Some "Bearer alice-key-0001").

Definition probe : Request :=
  {| method := GET; path := "/mcp"; origin := Some "https://evil.example";
     authorization := None; call := None |}.

Definition in_results (paths : value) : value :=
  Obj [("Results", Arr [Obj [("Result", Obj [("Paths", paths)])]])].

Definition two_paths : value :=
  in_results
    (Arr [Obj [("Technologies",
                Arr [Obj [("Name", Str "jQuery"); ("Tag", Str "javascript")];
                     Obj [("Name", Str "nginx"); ("Link", Str "https://nginx.org")]])];
          Obj [("Domain", Str "example.com")];
          Obj [("Technologies", Arr [Obj [("Name", Str "Varnish")]])]]).

(** A Technologies list whose only entry is null. *)
Definition null_entry : value :=
  in_results (Arr [Obj [("Technologies", Arr [Null])]]).

Definition no_paths : value := Obj [("Results", Arr [Obj [("Result", Obj [])]])].

Definition answers (data : value) (u : Url) : FetchOutcome :=
  FetchResolved 200 (Some data).

Definition alice_store : option Store := Some {| apiKey := Some "alice-key-0001" |}.

End Examples.

(* ===================================================================== *)
(** ** The stdio-only entry point (second file, [_tools] and [main]) *)
(* ===================================================================== *)

Module Legacy.
Import Js Async Upstream Registry.

(** [BUILTWITH_API_KEY] is [process.env.BUILTWITH_API_KEY] as it is (unset
    or a string) and the host name is fixed. *)
Definition config (key : option string) : Config.t :=
  {| Config.BUILTWITH_API_KEY := key;
     Config.BUILTWITH_API_HOSTNAME := "api.builtwith.com";
     Config.MCP_ALLOWED_ORIGINS := [] |}.

Definition missingKey : value := Obj [("error", Str "Missing BUILTWITH_API_KEY.")].

Definition missingKeyResponse : value :=
  buildResponse (Obj [("error", Str "Missing BUILTWITH_API_KEY environment variable.")]).

(** The URL loop and the handling of the response are, statement for
    statement, those of the first file. *)
Definition requestBuiltWithJson (key : option string) (path : string) (params : value)
    : Async.t Result :=
  match key with
  | None | Some EmptyString => Return (Failed missingKey)
  | Some k => AwaitFetch (request_url (config key) k path params) read_response
  end.

Definition handleBuiltWithJson (key : option string) (path : string) (params : value)
    : Async.t value :=
  result <- requestBuiltWithJson key path params ;;
  match result with
  | Failed error => Return (buildResponse error)
  | Ok data => Return (buildResponse data)
  end.

Definition domainLookup (key : option string) (input : value) : Async.t value :=
  match key with
  | None | Some EmptyString => Return missingKeyResponse
  | Some _ =>
      result <- requestBuiltWithJson key "v22/api.json" (domainLookupParams input) ;;
      match result with
      | Failed error => Return (buildResponse error)
      | Ok data =>
          let extractedData := extractTechnologies data in
          if (length extractedData =? 0)%nat then Return (buildResponse noTechnologies)
          else Return (buildResponse (Arr extractedData))
      end
  end.

Definition registerJsonTool (key : option string) (name description : string)
    (schema : Schema) (path : string) (buildParams : value -> value)
    (tools : list Tool) : list Tool :=
  tools ++ [{| tool_name := name; tool_description := description; tool_schema := schema;
               tool_callback := fun input => handleBuiltWithJson key path (buildParams input) |}].

(** What [_tools()] registers with the server, in order. *)
Definition tools (key : option string) : list Tool :=
  let ts :=
    [{| tool_name := "domain-lookup";
        tool_description := "Returns the live web technologies use on the root domain name.";
        tool_schema := [("domain", Zod ZodString); ("liveOnly", Zod (ZodOptional ZodBoolean))];
        tool_callback := domainLookup key |}] in
  let ts := registerJsonTool key "domain-api"
    "Domain API JSON lookup for technology and metadata by domain."
    [("lookup", Zod ZodString)] "v22/api.json" (pick "lookup" "LOOKUP") ts in
  let ts := registerJsonTool key "relationships-api"
    "Relationships API JSON lookup for related websites by domain."
    [("lookup", Zod ZodString)] "rv4/api.json" (pick "lookup" "LOOKUP") ts in
  let ts := registerJsonTool key "free-api"
    "Free API JSON lookup for category/group counts by domain."
    [("lookup", Zod ZodString)] "free1/api.json" (pick "lookup" "LOOKUP") ts in
  let ts := registerJsonTool key "company-to-url"
    "Company to URL API JSON lookup for domains from a company name."
    [("company", Zod ZodString)] "ctu3/api.json" (pick "company" "COMPANY") ts in
  let ts := registerJsonTool key "tags-api"
    "Tags API JSON lookup for related domains from IP or attributes."
    [("lookup", Zod ZodString)] "tag1/api.json" (pick "lookup" "LOOKUP") ts in
  let ts := registerJsonTool key "recommendations-api"
    "Recommendations API JSON lookup for technology recommendations by domain."
    [("lookup", Zod ZodString)] "rec1/api.json" (pick "lookup" "LOOKUP") ts in
  let ts := registerJsonTool key "redirects-api"
    "Redirects API JSON lookup for live and historical redirects by domain."
    [("lookup", Zod ZodString)] "redirect1/api.json" (pick "lookup" "LOOKUP") ts in
  let ts := registerJsonTool key "keywords-api"
    "Keywords API JSON lookup for keyword data by domain."
    [("lookup", Zod ZodString)] "kw2/api.json" (pick "lookup" "LOOKUP") ts in
  let ts := registerJsonTool key "trends-api"
    "Trends API JSON lookup for technology trend data."
    [("tech", Zod ZodString)] "trends/v6/api.json" (pick "tech" "TECH") ts in
  let ts := registerJsonTool key "product-api"
    "Product API JSON lookup for ecommerce product searches."
    [("query", Zod ZodString)] "productv1/api.json" (pick "query" "QUERY") ts in
  let ts := registerJsonTool key "trust-api"
    "Trust API JSON lookup for trust scoring by domain."
    [("lookup", Zod ZodString)] "trustv1/api.json" (pick "lookup" "LOOKUP") ts in
  let ts := registerJsonTool key "financial-api"
    "Financial API JSON lookup for financial data by domain."
    [("lookup", Zod ZodString)] "financial1/api.json" (pick "lookup" "LOOKUP") ts in
  registerJsonTool key "social-api"
    "Social API JSON lookup for domains related to social profiles."
    [("lookup", Zod ZodString)] "social1/api.json" (pick "lookup" "LOOKUP") ts.

End Legacy.

(* ===================================================================== *)
(** ** Prompt templates (lines 202-285) *)
(* ===================================================================== *)

Module Prompts.
Import Js Async Upstream Registry.

(** A [server.prompt(name, description, schema, callback)] registration. *)
Record Prompt : Type := {
  prompt_name : string;
  prompt_description : string;
  prompt_schema : Schema;
  prompt_callback : value -> value
}.

(** [{ messages: [{ role: "user", content: { type: "text", text } }] }] *)
Definition user_message (text : string) : value :=
  Obj [("messages",
        Arr [Obj [("role", Str "user");
                  ("content", Obj [("type", Str "text"); ("text", Str text)])]])].

(** The argument as the template literal prints it, between double quotes. *)
Definition quoted (v : value) : string := dquote ++ toString v ++ dquote.

(** What [registerPrompts] registers with the server, in order. *)
Definition server_prompts : list Prompt :=
  [ {| prompt_name := "analyze-tech-stack";
       prompt_description := "Analyze the technology stack of a domain";
       prompt_schema := [("domain", Zod ZodString)];
       prompt_callback := fun input =>
         user_message
           ("Use the domain-lookup tool to retrieve the live technologies used on "
            ++ quoted (member input "domain")
            ++ ". Summarize the tech stack by category (e.g. analytics, hosting, frameworks, CMS, CDN, widgets) and highlight any notable or unusual choices.") |};
    {| prompt_name := "find-related-websites";
       prompt_description := "Find websites related to a domain";
       prompt_schema := [("domain", Zod ZodString)];
       prompt_callback := fun input =>
         user_message
           ("Use the relationships-api tool to find websites related to "
            ++ quoted (member input "domain")
            ++ ". Summarize the relationships found, grouping them by type (e.g. shared analytics, shared hosting, same owner).") |};
    {| prompt_name := "get-technology-recommendations";
       prompt_description := "Get technology recommendations for a domain";
       prompt_schema := [("domain", Zod ZodString)];
       prompt_callback := fun input =>
         user_message
           ("Use the recommendations-api tool to get technology recommendations for "
            ++ quoted (member input "domain")
            ++ ". Present the recommendations clearly, explaining what each suggested technology does and why it might be a good fit.") |};
    {| prompt_name := "research-company";
       prompt_description := "Research a company's web presence by name";
       prompt_schema := [("company", Zod ZodString)];
       prompt_callback := fun input =>
         user_message
           ("First use the company-to-url tool to find domains associated with "
            ++ quoted (member input "company")
            ++ ". Then use the domain-lookup tool on the primary domain to analyze their tech stack. Provide a summary of the company's web presence and the technologies they use.") |};
    {| prompt_name := "check-domain-trust";
       prompt_description := "Check the trust score of a domain";
       prompt_schema := [("domain", Zod ZodString)];
       prompt_callback := fun input =>
         user_message
           ("Use the trust-api tool to look up the trust score for "
            ++ quoted (member input "domain")
            ++ ". Explain the trust score, what factors contribute to it, and any concerns or positive signals found.") |} ].

(** The tools a text names, each as the phrase the templates use. *)
Definition names_tool (text tool : string) : Prop :=
  exists before after, text = before ++ "the " ++ tool ++ " tool" ++ after.

End Prompts.

(* ===================================================================== *)
(** ** Further specification-side definitions *)
(* ===================================================================== *)

Module Coverage.
Import Js Async Upstream Registry Http Server Spec.

(** The upstream paths and the parameter names of the integration table. *)
Definition upstream_paths : list string :=
  ["v22/api.json"; "rv4/api.json"; "free1/api.json"; "ctu3/api.json"; "tag1/api.json";
   "rec1/api.json"; "redirect1/api.json"; "kw2/api.json"; "trends/v6/api.json";
   "productv1/api.json"; "trustv1/api.json"; "financial1/api.json"; "social1/api.json"].

Definition upstream_names : list string :=
  ["LOOKUP"; "LIVEONLY"; "COMPANY"; "TECH"; "QUERY"].

(** The four ways the upstream client fails, by message. *)
Definition failure_messages : list string :=
  ["Missing BuiltWith API key."; "Failed to reach BuiltWith API.";
   "BuiltWith API did not return JSON."; "BuiltWith API error."].

(** The lower-cased type names [zodSchemaToJson] can print. *)
Definition printed_types : list string :=
  ["string"; "boolean"; "number"; "optional"; "nullable"].

Definition no_comma (s : string) : bool :=
  forallb_string (fun c => negb (Ascii.eqb c ","%char)) s.

(** What a suspended continuation has still to leave behind when it runs
    alone from its suspension: the call it waits for is already issued. *)
Definition pending (net : Url -> FetchOutcome) (ctx : option Store) (m : Async.t unit)
    : list Event :=
  match m with
  | AwaitFetch url k => snd (run net ctx (k (net url)))
  | other => snd (run net ctx other)
  end.

(** Each session of the event loop is where it would be had it run alone:
    what it has left behind so far, followed by what is pending, is the
    trace of the session run by itself in its own store. *)
Definition isolated (cfg : Config.t) (st : State) (net : Url -> FetchOutcome) (w : World)
    : Prop :=
  NoDup (map task_request (tasks w)) /\
  forall task, In task (tasks w) ->
    exists req,
      nth_error (arrived w) (task_request task) = Some req /\
      dispatch req = Some McpHandler /\
      validateOrigin cfg req = OriginAdmitted /\
      task_context task = store_of req /\
      (events_of (task_request task) w ++ pending net (task_context task) (task_cont task))%list
        = snd (run net (store_of req) (session st req)).

(** Every admitted request of the MCP route has its session among the tasks. *)
Definition served (cfg : Config.t) (w : World) : Prop :=
  forall rid req,
    nth_error (arrived w) rid = Some req ->
    dispatch req = Some McpHandler ->
    validateOrigin cfg req = OriginAdmitted ->
    exists task, In task (tasks w) /\ task_request task = rid.

(** A configuration with a fallback key, and a request without credentials. *)
Definition cfg_with_key : Config.t :=
  Config.load {| Config.env_BUILTWITH_API_KEY := Some "process-key-01";
                 Config.env_BUILTWITH_API_HOSTNAME := Some "upstream.test";
                 Config.env_MCP_ALLOWED_ORIGINS := Some " https://app.example , ,https://b.example" |}.

Definition anonymous : Request :=
  {| method := POST; path := "/mcp"; origin := None; authorization := None;
     call := Some ("trends-api", Obj [("tech", Str "Shopify")]) |}.

(** *** The body parser

    [app.use(express.json({ limit: "2mb" }))] (line 414) runs before every
    route.  It hands the request on, with the parsed body where there was a
    JSON one, or it refuses the request (a body that is not JSON, a body
    over the limit, an encoding it does not read): then no route is tried
    and Express answers with the status of the parser's error and a page of
    its own, whose body is left out here. *)
Inductive BodyOutcome : Type :=
| BodyAccepted
| BodyRefused (status : Z).

(** The route handler a request gets to, behind the body parser. *)
Definition route_of (body : BodyOutcome) (req : Request) : option Handler :=
  match body with
  | BodyAccepted => dispatch req
  | BodyRefused _ => None
  end.

(** The synchronous part of the application, for a request that arrives:
    the body parser, then the route handlers. *)
Definition receive (cfg : Config.t) (st : State) (w : World) (body : BodyOutcome)
    (req : Request) : World :=
  match body with
  | BodyAccepted => arrive cfg st w req
  | BodyRefused status =>
      {| current := current w; tasks := tasks w;
         arrived := arrived w ++ [req];
         log := log w ++ [(length (arrived w), EvRespond status Undefined)] |}
  end.

End Coverage.

(* ===================================================================== *)
(** ** Bearer extraction *)
(* ===================================================================== *)

Section BearerFacts.
Import Js Http Spec.

Lemma trimStart_idem (s : string) : trimStart (trimStart s) = trimStart s.
Proof.
  induction s as [| c r IH]; simpl; [reflexivity |].
  destruct (isWhiteSpace c) eqn:E; [exact IH |].
  simpl; rewrite E; reflexivity.
Qed.

Lemma forallb_trimStart p (s : string) :
  forallb_string p s = true -> forallb_string p (trimStart s) = true.
Proof.
  induction s as [| c r IH]; simpl; [auto |].
  intros H; apply andb_prop in H as [Hc Hr].
  destruct (isWhiteSpace c); simpl; [auto | now rewrite Hc, Hr].
Qed.

Lemma dot_plus_end_trimStart_none (c : ascii) (r : string) :
  isWhiteSpace c = true ->
  trimStart r <> EmptyString ->
  dot_plus_end (trimStart r) = None ->
  dot_plus_end (String c r) = None.
Proof.
  intros Hc Hne Hnone. unfold dot_plus_end in *.
  destruct (trimStart r) eqn:Et; [contradiction |].
  destruct (forallb_string _ (String a s)) eqn:Ef; [discriminate |].
  destruct (forallb_string _ (String c r)) eqn:Ef'; [| reflexivity].
  simpl in Ef'. apply andb_prop in Ef' as [_ Hr].
  apply forallb_trimStart in Hr. rewrite Et in Hr. congruence.
Qed.

(** With something other than white space ahead, the greedy white-space run
    is the whole run: backtracking cannot help the rest to match. *)
Lemma space_star_then_value (s : string) :
  trimStart s <> EmptyString ->
  space_star_then s = dot_plus_end (trimStart s).
Proof.
  induction s as [| c r IH]; simpl; [reflexivity |].
  destruct (isWhiteSpace c) eqn:E; [| reflexivity].
  intros Hne. rewrite (IH Hne).
  destruct (dot_plus_end (trimStart r)) eqn:Ed; [reflexivity |].
  now apply dot_plus_end_trimStart_none.
Qed.

(** With white space only ahead, whatever is captured trims to nothing. *)
Lemma space_star_then_blank (s : string) :
  trimStart s = EmptyString ->
  forall m, space_star_then s = Some m -> trim m = EmptyString.
Proof.
  induction s as [| c r IH]; simpl; [discriminate |].
  destruct (isWhiteSpace c) eqn:E; [| discriminate].
  intros Hb m. destruct (space_star_then r) eqn:Es.
  - intros [= <-]. now apply IH.
  - unfold dot_plus_end.
    match goal with |- context [if ?b then _ else _] => destruct b end; [| discriminate].
    intros [= <-]. unfold trim. simpl. rewrite E, Hb. reflexivity.
Qed.

Lemma in_range_spec (s : string) :
  ((String.length s <? 10) || (256 <? String.length s))%nat = negb (in_range s).
Proof.
  unfold in_range.
  destruct (Nat.ltb_spec (String.length s) 10), (Nat.ltb_spec 256 (String.length s)),
           (Nat.leb_spec 10 (String.length s)), (Nat.leb_spec (String.length s) 256);
    simpl; try reflexivity; lia.
Qed.

Lemma exec_bearer_post_prefix (h : string) :
  exec_bearer h =
  match post_prefix h with
  | None => None
  | Some v =>
      match dropn 6 h with
      | String _ r => space_star_then r
      | EmptyString => None
      end
  end.
Proof.
  unfold exec_bearer, post_prefix, space_plus_then.
  destruct (String.eqb _ "bearer"); [| reflexivity].
  destruct (dropn 6 h) as [| c r]; [reflexivity |].
  destruct (isWhiteSpace c); reflexivity.
Qed.

Lemma post_prefix_empty : post_prefix EmptyString = None.
Proof. reflexivity. Qed.

Lemma extract_is_bearer_credential (req : Request) :
  extractBearerApiKeyOptional req = bearer_credential (authorization req).
Proof.
  unfold extractBearerApiKeyOptional, bearer_credential.
  destruct (authorization req) as [[| c0 h0] |]; try reflexivity.
  set (h := String c0 h0). rewrite exec_bearer_post_prefix.
  unfold post_prefix.
  destruct (String.eqb _ "bearer"); [| reflexivity].
  destruct (dropn 6 h) as [| c r]; [reflexivity |].
  destruct (isWhiteSpace c); [| reflexivity].
  destruct (trimStart r) eqn:Et.
  - (* nothing but white space after the scheme *)
    simpl. destruct (space_star_then r) eqn:Es; [| reflexivity].
    rewrite (space_star_then_blank r Et _ Es). reflexivity.
  - rewrite space_star_then_value by (rewrite Et; discriminate).
    rewrite Et. unfold dot_plus_end.
    destruct (forallb_string _ (String a s)); [| reflexivity].
    unfold trim. rewrite <- Et, trimStart_idem, in_range_spec.
    destruct (in_range (trimEnd (trimStart r))); reflexivity.
Qed.

(** C3, as amended.  For every request, the extracted bearer credential is
    the header value after the scheme prefix with its trailing white space
    trimmed, exactly when the authorization header has the Bearer prefix (in
    any letter case) followed by white space, the value holds no line break,
    and its trimmed length is 10 to 256; for every other header (missing,
    malformed prefix, too short, too long) the result is absent.  The
    function is total: no header makes it fail. *)
Theorem bearer_extraction_characterised :
  forall (req : Request) (key : string),
    extractBearerApiKeyOptional req = Some key <->
    exists h v,
      authorization req = Some h /\
      post_prefix h = Some v /\
      forallb_string (fun c => negb (isLineTerminator c)) v = true /\
      key = trimEnd v /\
      (10 <= String.length key <= 256)%nat.
Proof.
  intros req key. rewrite extract_is_bearer_credential. unfold bearer_credential.
  split.
  - destruct (authorization req) as [h |]; [| discriminate].
    destruct (post_prefix h) as [v |] eqn:Ev; [| discriminate].
    destruct (forallb_string _ v) eqn:Ef; [| discriminate].
    destruct (in_range (trimEnd v)) eqn:Er; [| discriminate].
    intros [= <-]. exists h, v.
    unfold in_range in Er. apply andb_prop in Er as [E1 E2].
    apply Nat.leb_le in E1. apply Nat.leb_le in E2.
    repeat split; auto.
  - intros (h & v & -> & -> & -> & -> & Hlo & Hhi).
    unfold in_range.
    apply Nat.leb_le in Hlo; apply Nat.leb_le in Hhi. rewrite Hlo, Hhi. reflexivity.
Qed.

(** On a value with no white space at either end the two readings agree:
    the credential is the header value itself. *)
Lemma bearer_plain_value (o : option string) (c : option (string * value)) (v : string) :
  in_range v = true ->
  trimStart v = v ->
  trimEnd v = v ->
  forallb_string (fun c => negb (isLineTerminator c)) v = true ->
  extractBearerApiKeyOptional
    {| method := POST; path := "/mcp"; origin := o;
       authorization := Some ("Bearer " ++ v); call := c |} = Some v /\
  bearer_as_specified (Some ("Bearer " ++ v)) = Some v.
Proof.
  intros Hr Hs He Hl. rewrite extract_is_bearer_credential.
  unfold bearer_credential, bearer_as_specified, post_prefix. simpl.
  rewrite Hs, Hl, He, Hr. split; reflexivity.
Qed.

Example bearer_examples :
  map (fun a => extractBearerApiKeyOptional
                  {| method := POST; path := "/mcp"; origin := None;
                     authorization := a; call := None |})
      [Some "Bearer abcdefghij"; Some "bEARER   abcdefghij"; Some "Bearer abcdefghi";
       Some "Bearerabcdefghijkl"; Some "Basic abcdefghijkl"; Some "Bearer    "; None]
  = [Some "abcdefghij"; Some "abcdefghij"; None; None; None; None; None].
Proof. reflexivity. Qed.

(** C3 as stated fails on a header a client can deliver: after the prefix
    come nine letters and a no-break space (code unit 160), which the HTTP
    parser leaves in the header value, unlike a trailing space or tab.  The
    value has 10 code units, in range as the specification words it, and the
    code trims the no-break space, finds 9 code units and returns absent. *)
Lemma bearer_as_specified_fails_on_nbsp :
  isWhiteSpace (ascii_of_nat 160) = true /\
  bearer_as_specified
    (Some ("Bearer abcdefghi" ++ String (ascii_of_nat 160) EmptyString)) =
    Some ("abcdefghi" ++ String (ascii_of_nat 160) EmptyString) /\
  extractBearerApiKeyOptional
    {| method := POST; path := "/mcp"; origin := None;
       authorization :=
         Some ("Bearer abcdefghi" ++ String (ascii_of_nat 160) EmptyString);
       call := None |} = None.
Proof. repeat split; reflexivity. Qed.

End BearerFacts.

(* ===================================================================== *)
(** ** The event loop: bookkeeping *)
(* ===================================================================== *)

Section EventLoopFacts.
Import Js Async Upstream Registry Http Server Spec.

Variable cfg : Config.t.
Variable st : State.
Variable net : Url -> FetchOutcome.

Lemma exec_app (w : World) (l1 l2 : list Label) :
  exec cfg st net w (l1 ++ l2) = exec cfg st net (exec cfg st net w l1) l2.
Proof. unfold exec. apply fold_left_app. Qed.

Lemma advance_tags cur rid (m : Async.t unit) :
  forall e, In e (snd (advance cur rid m)) -> fst e = rid.
Proof.
  induction m as [a | k IH | url k IH | k IH | ev k IH]; simpl; intros e He.
  - contradiction.
  - now apply (IH cur).
  - destruct He as [<- | []]. reflexivity.
  - contradiction.
  - destruct (advance cur rid k) as [m' evs]. simpl in *.
    destruct He as [<- | He]; [reflexivity | now apply IH].
Qed.

Lemma In_replace_nth {A : Type} (i : nat) (x y : A) (l : list A) :
  In y (replace_nth i x l) -> y = x \/ In y l.
Proof.
  revert i. induction l as [| z l IH]; intros [| i]; simpl; auto.
  - intros [-> | H]; auto.
  - intros [-> | H]; auto. destruct (IH _ H); auto.
Qed.

Lemma events_of_app rid (w : World) (evs : list (nat * Event)) (w' : World) :
  log w' = (log w ++ evs)%list ->
  events_of rid w' =
  (events_of rid w ++ map snd (filter (fun e => Nat.eqb (fst e) rid) evs))%list.
Proof.
  intros H. unfold events_of. rewrite H, filter_app, map_app. reflexivity.
Qed.

Lemma filter_other_tag rid (evs : list (nat * Event)) :
  (forall e, In e evs -> fst e <> rid) ->
  filter (fun e => Nat.eqb (fst e) rid) evs = [].
Proof.
  induction evs as [| e evs IH]; simpl; intros H; [reflexivity |].
  destruct (Nat.eqb_spec (fst e) rid) as [E | _].
  - exfalso. apply (H e); auto.
  - apply IH. intros; apply H; auto.
Qed.

Lemma respond_shape (w : World) (req : Request) (ev : Event) :
  arrival_shape w
    {| current := current w; tasks := tasks w;
       arrived := arrived w ++ [req];
       log := log w ++ [(length (arrived w), ev)] |} req.
Proof.
  split; [reflexivity |]. split; [reflexivity |].
  exists [(length (arrived w), ev)], []. simpl. rewrite app_nil_r.
  repeat split.
  - intros e [<- | []]. reflexivity.
  - intros t [].
Qed.

Lemma arrive_shape (w : World) (req : Request) :
  arrival_shape w (arrive cfg st w req) req.
Proof.
  unfold arrive.
  destruct (dispatch req) as [[| |] |]; try apply respond_shape.
  destruct (validateOrigin cfg req); [| apply respond_shape].
  match goal with
  | |- context [advance ?c ?r ?m] => destruct (advance c r m) as [cont evs] eqn:Ea
  end.
  split; [reflexivity |]. split; [reflexivity |].
  eexists evs, [_]. simpl. repeat split.
  - intros e He. change evs with (snd (cont, evs)) in He. rewrite <- Ea in He.
    eapply advance_tags. exact He.
  - intros t [<- | []]. reflexivity.
Qed.

Lemma resume_shape (w : World) (i : nat) :
  let w' := resume net w i in
  arrived w' = arrived w /\
  current w' = current w /\
  exists evs,
    log w' = (log w ++ evs)%list /\
    (forall e, In e evs -> exists t, In t (tasks w) /\ fst e = task_request t) /\
    (forall t, In t (tasks w') -> exists t0, In t0 (tasks w) /\ task_request t = task_request t0).
Proof.
  intros w'; subst w'; unfold resume.
  assert (Hidle : arrived w = arrived w /\ current w = current w /\
            exists evs, log w = (log w ++ evs)%list /\
              (forall e, In e evs -> exists t, In t (tasks w) /\ fst e = task_request t) /\
              (forall t, In t (tasks w) ->
                 exists t0, In t0 (tasks w) /\ task_request t = task_request t0)).
  { split; [reflexivity |]. split; [reflexivity |].
    exists []. rewrite app_nil_r. repeat split.
    - intros ? [].
    - intros t Ht; exists t; auto. }
  destruct (nth_error (tasks w) i) as [task |] eqn:En; [| exact Hidle].
  destruct (settle net (task_cont task)) as [m |]; [| exact Hidle].
  match goal with
  | |- context [advance ?c ?r ?m] => destruct (advance c r m) as [cont evs] eqn:Ea
  end.
  split; [reflexivity |]. split; [reflexivity |].
  exists evs. simpl. repeat split.
  - intros e He. exists task. split; [eapply nth_error_In; eauto |].
    change evs with (snd (cont, evs)) in He. rewrite <- Ea in He.
    eapply advance_tags. exact He.
  - intros t Ht. apply In_replace_nth in Ht as [-> | Ht].
    + exists task. split; [eapply nth_error_In; eauto | reflexivity].
    + exists t. auto.
Qed.

Lemma bounded_boot : bounded boot.
Proof. split; intros ? []. Qed.

Lemma bounded_step (w : World) (l : Label) : bounded w -> bounded (step cfg st net w l).
Proof.
  intros [Ht Hl]. destruct l as [req | i]; simpl.
  - destruct (arrive_shape w req) as (Ea & _ & evs & news & El & Et & Hevs & Hnews).
    split.
    + intros t. rewrite Et, Ea, in_app_iff, length_app. simpl.
      intros [H | H]; [apply Ht in H | apply Hnews in H]; lia.
    + intros e. rewrite El, Ea, in_app_iff, length_app. simpl.
      intros [H | H]; [apply Hl in H | apply Hevs in H]; lia.
  - destruct (resume_shape w i) as (Ea & _ & evs & El & Hevs & Htasks).
    split.
    + intros t H. rewrite Ea. destruct (Htasks t H) as (t0 & H0 & ->). auto.
    + intros e. rewrite El, Ea, in_app_iff.
      intros [H | H]; [auto |]. destruct (Hevs e H) as (t0 & H0 & ->). auto.
Qed.

Lemma bounded_exec (schedule : list Label) (w : World) :
  bounded w -> bounded (exec cfg st net w schedule).
Proof.
  revert w. induction schedule as [| l ls IH]; intros w H; [exact H |].
  apply IH, bounded_step, H.
Qed.

Lemma settled_step rid evs (w : World) (l : Label) :
  settled rid evs w -> settled rid evs (step cfg st net w l).
Proof.
  intros (Hlt & Ht & He). destruct l as [req | i]; simpl.
  - destruct (arrive_shape w req) as (Ea & _ & evs' & news & El & Et & Hevs & Hnews).
    repeat split.
    + rewrite Ea, length_app. simpl. lia.
    + intros t. rewrite Et, in_app_iff.
      intros [H | H]; [now apply Ht | apply Hnews in H; lia].
    + rewrite (events_of_app rid w evs' _ El), He, filter_other_tag.
      * apply app_nil_r.
      * intros e H. apply Hevs in H. lia.
  - destruct (resume_shape w i) as (Ea & _ & evs' & El & Hevs & Htasks).
    repeat split.
    + now rewrite Ea.
    + intros t H. destruct (Htasks t H) as (t0 & H0 & ->). auto.
    + rewrite (events_of_app rid w evs' _ El), He, filter_other_tag.
      * apply app_nil_r.
      * intros e H. destruct (Hevs e H) as (t0 & H0 & ->). auto.
Qed.

Lemma settled_exec rid evs (schedule : list Label) (w : World) :
  settled rid evs w -> settled rid evs (exec cfg st net w schedule).
Proof.
  revert w. induction schedule as [| l ls IH]; intros w H; [exact H |].
  apply IH, settled_step, H.
Qed.

(** A request answered at once, without a session, is settled there. *)
Lemma settled_by_response (w : World) (req : Request) status body :
  bounded w ->
  arrive cfg st w req =
    {| current := current w; tasks := tasks w;
       arrived := arrived w ++ [req];
       log := log w ++ [(length (arrived w), EvRespond status body)] |} ->
  settled (length (arrived w)) [EvRespond status body] (arrive cfg st w req).
Proof.
  intros [Ht Hl] ->. repeat split; simpl.
  - rewrite length_app. simpl. lia.
  - intros t H. apply Ht in H. lia.
  - unfold events_of. simpl. rewrite filter_app, map_app. simpl.
    rewrite Nat.eqb_refl. simpl. rewrite filter_other_tag; [reflexivity |].
    intros e H. apply Hl in H. lia.
Qed.

End EventLoopFacts.

(* ===================================================================== *)
(** ** The query of an upstream call *)
(* ===================================================================== *)

Section QueryFacts.
Import Js Async Upstream Spec.

Lemma lookup_filter_other {A : Type} (k n : string) (q : list (string * A)) :
  n <> k ->
  lookup k (filter (fun p => negb (String.eqb (fst p) n)) q) = lookup k q.
Proof.
  intros Hne. induction q as [| [n' v'] q IH]; simpl; [reflexivity |].
  destruct (String.eqb_spec n' n) as [-> | Hn]; simpl.
  - destruct (String.eqb_spec n k); [contradiction | exact IH].
  - now rewrite IH.
Qed.

Lemma lookup_set_other (k n v : string) (q : list (string * string)) :
  n <> k -> lookup k (searchParams_set n v q) = lookup k q.
Proof.
  intros Hne. induction q as [| [n' v'] q IH]; simpl.
  - destruct (String.eqb_spec n k); [contradiction | reflexivity].
  - destruct (String.eqb_spec n' n) as [-> | Hn]; simpl.
    + destruct (String.eqb_spec n k); [contradiction |].
      now apply lookup_filter_other.
    + now rewrite IH.
Qed.

(** A name that is not there yet goes to the end. *)
Lemma set_fresh (n v : string) (q : list (string * string)) :
  ~ In n (map fst q) -> searchParams_set n v q = (q ++ [(n, v)])%list.
Proof.
  induction q as [| [n' v'] q IH]; simpl; intros H; [reflexivity |].
  destruct (String.eqb_spec n' n) as [-> | Hn]; [tauto |].
  rewrite IH; tauto.
Qed.

Lemma add_params_href (entries : list (string * value)) (url : Url) :
  href (fold_left add_param entries url) = href url.
Proof.
  revert url. induction entries as [| kv entries IH]; intros url; simpl; [reflexivity |].
  rewrite IH. unfold add_param. destruct (sendable (snd kv)); reflexivity.
Qed.

Lemma add_params_keep (k : string) (entries : list (string * value)) (url : Url) :
  ~ In k (map fst entries) ->
  lookup k (searchParams (fold_left add_param entries url)) = lookup k (searchParams url).
Proof.
  revert url. induction entries as [| kv entries IH]; intros url H; simpl; [reflexivity |].
  simpl in H. rewrite IH by tauto.
  unfold add_param. destruct (sendable (snd kv)); [| reflexivity].
  simpl. apply lookup_set_other. tauto.
Qed.

Lemma add_params_fresh (entries : list (string * value)) (url : Url) :
  NoDup (map fst entries) ->
  (forall k, In k (map fst entries) -> ~ In k (map fst (searchParams url))) ->
  searchParams (fold_left add_param entries url) =
  (searchParams url ++ sent_pairs entries)%list.
Proof.
  revert url. induction entries as [| [k v] entries IH]; intros url Hnd Hfresh; simpl.
  - unfold sent_pairs. simpl. now rewrite app_nil_r.
  - inversion Hnd as [| ? ? Hk Hnd']; subst.
    unfold sent_pairs, add_param at 2. simpl.
    destruct (sendable v) eqn:Es; simpl.
    + rewrite IH; auto.
      * simpl. rewrite set_fresh by (apply Hfresh; simpl; auto).
        rewrite <- app_assoc. reflexivity.
      * intros k' Hk'. simpl. rewrite set_fresh by (apply Hfresh; simpl; auto).
        rewrite map_app, in_app_iff. simpl.
        intros [H | [<- | []]]; [| contradiction].
        apply (Hfresh k'); simpl; auto.
    + apply IH; auto. intros k' Hk'. apply Hfresh. simpl; auto.
Qed.

End QueryFacts.

(* ===================================================================== *)
(** ** The upstream client, one call alone *)
(* ===================================================================== *)

Section UpstreamFacts.
Import Js Async Upstream Registry Spec.

Variable cfg : Config.t.
Variable net : Url -> FetchOutcome.
Variable store : option Store.

Lemma run_bind {A B : Type} (m : Async.t A) (f : A -> Async.t B) :
  run net store (bind m f) =
  (fst (run net store (f (fst (run net store m)))),
   (snd (run net store m) ++ snd (run net store (f (fst (run net store m)))))%list).
Proof.
  induction m as [a | k IH | url k IH | k IH | e k IH]; simpl.
  - destruct (run net store (f a)); reflexivity.
  - apply IH.
  - rewrite IH. destruct (run net store (k (net url))) as [a tr1]. reflexivity.
  - apply IH.
  - rewrite IH. destruct (run net store k) as [a tr1]. reflexivity.
Qed.

(** Reading the response issues nothing further. *)
Lemma run_read_response (o : FetchOutcome) :
  snd (run net store (read_response o)) = [].
Proof.
  destruct o as [err | status [data |]]; simpl; try reflexivity.
  destruct (is_ok status); reflexivity.
Qed.

Lemma run_read_response_ok (status : Z) (data : value) :
  is_ok status = true ->
  run net store (read_response (FetchResolved status (Some data))) = (Ok data, []).
Proof. intros H. simpl. rewrite H. reflexivity. Qed.

Lemma run_request_missing (path : string) (params : value) :
  currentApiKey cfg store = None \/ currentApiKey cfg store = Some EmptyString ->
  run net store (requestBuiltWithJson cfg path params) = (Failed authMissing, []).
Proof.
  unfold requestBuiltWithJson, getCurrentApiKey. simpl.
  intros [-> | ->]; reflexivity.
Qed.

Lemma run_request_keyed (path : string) (params : value) (key : string) :
  currentApiKey cfg store = Some key -> key <> EmptyString ->
  run net store (requestBuiltWithJson cfg path params) =
  (fst (run net store (read_response (net (request_url cfg key path params)))),
   [EvFetch (request_url cfg key path params)]).
Proof.
  unfold requestBuiltWithJson, getCurrentApiKey. cbn [bind run].
  intros -> Hne. destruct key as [| c r]; [contradiction |].
  cbn [run].
  pose proof (run_read_response (net (request_url cfg (String c r) path params))) as H.
  destruct (run net store (read_response _)) as [a tr]. cbn [fst snd] in *. now subst.
Qed.

Lemma request_url_shape (key path : string) (props : list (string * value)) :
  NoDup (map fst props) ->
  ~ In "KEY" (map fst props) ->
  request_url cfg key path (Obj props) =
  {| href := "https://" ++ Config.BUILTWITH_API_HOSTNAME cfg ++ "/" ++ path;
     searchParams := ("KEY", key) :: sent_pairs props |}.
Proof.
  intros Hnd Hkey. unfold request_url. simpl.
  match goal with |- fold_left _ _ ?u = _ => set (u0 := u) end.
  pose proof (add_params_href props u0) as Hh.
  pose proof (add_params_fresh props u0 Hnd) as Hs.
  destruct (fold_left add_param props u0) as [h q]. simpl in *.
  rewrite Hh, Hs; [reflexivity |].
  intros k Hk [E | []]. subst k. contradiction.
Qed.

Lemma handle_missing (path : string) (params : value) :
  currentApiKey cfg store = None \/ currentApiKey cfg store = Some EmptyString ->
  run net store (handleBuiltWithJson cfg path params) = (buildResponse authMissing, []).
Proof.
  intros H. unfold handleBuiltWithJson.
  rewrite run_bind, (run_request_missing _ _ H). reflexivity.
Qed.

Lemma domainLookup_missing (input : value) :
  currentApiKey cfg store = None \/ currentApiKey cfg store = Some EmptyString ->
  run net store (domainLookup cfg input) = (buildResponse authMissing, []).
Proof.
  intros H. unfold domainLookup.
  rewrite run_bind, (run_request_missing _ _ H). reflexivity.
Qed.

End UpstreamFacts.

(* ===================================================================== *)
(** ** Upstream calls of the tools *)
(* ===================================================================== *)

Section ToolFacts.
Import Js Async Upstream Registry Spec.

Lemma sent_pairs_spec (props : list (string * value)) (k v : string) :
  In (k, v) (sent_pairs props) <->
  exists x, In (k, x) props /\ x <> Undefined /\ x <> Null /\
            toString x <> EmptyString /\ v = toString x.
Proof.
  unfold sent_pairs. rewrite in_map_iff. split.
  - intros ([k' x] & Heq & Hin). simpl in Heq. injection Heq as <- <-.
    apply filter_In in Hin as [Hin Hs]. simpl in Hs.
    exists x. split; [exact Hin |].
    destruct x; simpl in Hs; try discriminate;
      (repeat split; try discriminate;
       intros E; simpl in E; rewrite E in Hs; discriminate).
  - intros (x & Hin & Hu & Hn & Hs & ->). exists (k, x). split; [reflexivity |].
    apply filter_In. split; [exact Hin |]. cbn [snd]. unfold sendable.
    destruct x; try contradiction;
      match goal with
      | H : toString ?y <> EmptyString |- _ =>
          destruct (toString y); [contradiction | reflexivity]
      end.
Qed.

(** C7.  For every upstream call made with a resolvable credential, with
    parameters given as an object (distinct names) none of which is named
    KEY, exactly one network call is issued, to https://hostname/path, and
    its query is the credential as KEY followed by exactly the parameters
    whose value is neither undefined nor null nor of empty string form, in
    order; the others are left out. *)
Theorem upstream_url_carries_key_and_sent_params :
  forall (cfg : Config.t) (net : Url -> FetchOutcome) (store : option Store)
         (path : string) (props : list (string * value)) (key : string),
    currentApiKey cfg store = Some key ->
    key <> EmptyString ->
    NoDup (map fst props) ->
    ~ In "KEY" (map fst props) ->
    snd (run net store (requestBuiltWithJson cfg path (Obj props))) =
    [EvFetch {| href := "https://" ++ Config.BUILTWITH_API_HOSTNAME cfg ++ "/" ++ path;
                searchParams := ("KEY", key) :: sent_pairs props |}] /\
    (forall k v, In (k, v) (sent_pairs props) <->
                 exists x, In (k, x) props /\ x <> Undefined /\ x <> Null /\
                           toString x <> EmptyString /\ v = toString x).
Proof.
  intros cfg net store path props key Hkey Hne Hnd Hfresh. split.
  - rewrite (run_request_keyed cfg net store path (Obj props) key Hkey Hne).
    simpl. now rewrite request_url_shape.
  - intros k v. apply sent_pairs_spec.
Qed.

Lemma upstream_url_example :
  snd (run (Examples.answers Examples.no_paths) Examples.alice_store
         (requestBuiltWithJson Examples.cfg "v22/api.json"
            (Obj [("LOOKUP", Str "example.com"); ("LIVEONLY", Undefined);
                  ("EMPTY", Str EmptyString); ("N", Num 0); ("B", Bool false)]))) =
  [EvFetch {| href := "https://api.builtwith.com/v22/api.json";
              searchParams := [("KEY", "alice-key-0001"); ("LOOKUP", "example.com");
                               ("N", "0"); ("B", "false")] |}].
Proof.
  refine (proj1 (upstream_url_carries_key_and_sent_params Examples.cfg
           (Examples.answers Examples.no_paths) Examples.alice_store "v22/api.json"
           [("LOOKUP", Str "example.com"); ("LIVEONLY", Undefined);
            ("EMPTY", Str EmptyString); ("N", Num 0); ("B", Bool false)]
           "alice-key-0001" _ _ _ _)).
  - reflexivity.
  - discriminate.
  - repeat constructor; simpl; intuition discriminate.
  - simpl; intuition discriminate.
Defined.

(** What is sent, on the values a parameter mapper can produce. *)
Lemma sendable_scalar (v : value) :
  sendable v =
  match v with
  | Undefined | Null => false
  | Str s => negb (String.eqb s EmptyString)
  | other => (0 <? String.length (toString other))%nat
  end.
Proof.
  destruct v; try reflexivity. simpl. destruct s; reflexivity.
Qed.

(** C9.  For every domain-lookup invocation that reaches the upstream, the
    call carries LIVEONLY=yes unless the input's liveOnly is exactly false,
    in which case LIVEONLY is left out; with liveOnly absent it is yes. *)
Theorem domain_lookup_liveonly_default :
  forall (cfg : Config.t) (net : Url -> FetchOutcome) (store : option Store)
         (input : value) (key : string),
    currentApiKey cfg store = Some key ->
    key <> EmptyString ->
    exists url,
      snd (run net store (domainLookup cfg input)) = [EvFetch url] /\
      (member input "liveOnly" = Bool false ->
         lookup "LIVEONLY" (searchParams url) = None) /\
      (member input "liveOnly" <> Bool false ->
         lookup "LIVEONLY" (searchParams url) = Some "yes") /\
      (member input "liveOnly" = Undefined ->
         lookup "LIVEONLY" (searchParams url) = Some "yes").
Proof.
  intros cfg net store input key Hkey Hne.
  exists (request_url cfg key "v22/api.json" (domainLookupParams input)).
  assert (Hrun : snd (run net store (domainLookup cfg input)) =
                 [EvFetch (request_url cfg key "v22/api.json" (domainLookupParams input))]).
  { unfold domainLookup. rewrite run_bind.
    rewrite (run_request_keyed cfg net store _ _ key Hkey Hne). cbn [fst snd].
    destruct (fst (run net store (read_response _))) as [data | err]; simpl.
    - destruct (length (extractTechnologies data) =? 0)%nat; reflexivity.
    - reflexivity. }
  assert (Hyes : member input "liveOnly" <> Bool false ->
                 lookup "LIVEONLY"
                   (searchParams (request_url cfg key "v22/api.json" (domainLookupParams input)))
                 = Some "yes").
  { intros Hl. unfold domainLookupParams.
    assert (E : strict_eq_bool (member input "liveOnly") false = false).
    { destruct (member input "liveOnly") as [| | [|] | | | |]; try reflexivity.
      now contradiction Hl. }
    rewrite E, request_url_shape.
    - unfold sent_pairs. simpl. destruct (sendable (member input "domain")); reflexivity.
    - repeat constructor; simpl; intuition discriminate.
    - simpl; intuition discriminate. }
  split; [exact Hrun |]. split; [| split].
  - intros Hl. unfold domainLookupParams. rewrite Hl. simpl strict_eq_bool. cbv iota.
    rewrite request_url_shape.
    + unfold sent_pairs. simpl. destruct (sendable (member input "domain")); reflexivity.
    + repeat constructor; simpl; intuition discriminate.
    + simpl; intuition discriminate.
  - exact Hyes.
  - intros Hl. apply Hyes. rewrite Hl. discriminate.
Qed.

Lemma domain_lookup_liveonly_example :
  exists url,
    snd (run (Examples.answers Examples.two_paths) Examples.alice_store
           (domainLookup Examples.cfg (Obj [("domain", Str "example.com")]))) = [EvFetch url] /\
    lookup "LIVEONLY" (searchParams url) = Some "yes".
Proof.
  destruct (domain_lookup_liveonly_default Examples.cfg (Examples.answers Examples.two_paths)
              Examples.alice_store (Obj [("domain", Str "example.com")]) "alice-key-0001")
    as (url & Hrun & _ & _ & Habsent).
  - reflexivity.
  - discriminate.
  - exists url. split; [exact Hrun | apply Habsent; reflexivity].
Defined.

End ToolFacts.

(* ===================================================================== *)
(** ** Missing credential *)
(* ===================================================================== *)

Section MissingKeyFacts.
Import Js Async Upstream Registry Spec.

Lemma no_credential (cfg : Config.t) (store : option Store) :
  (forall s, store = Some s -> apiKey s = None) ->
  Config.BUILTWITH_API_KEY cfg = None ->
  currentApiKey cfg store = None.
Proof.
  intros Hs Hf. unfold currentApiKey.
  destruct store as [[k] |]; [| exact Hf].
  specialize (Hs _ eq_refl). simpl in Hs. subst k. exact Hf.
Qed.

(** C2.  With no per-request credential and no process-wide fallback, the
    upstream client returns the missing-key failure for every path and
    parameters, every registered tool returns that failure as its payload,
    and no network call (indeed no event at all) is issued. *)
Theorem no_credential_no_network_call :
  forall (cfg : Config.t) (net : Url -> FetchOutcome) (store : option Store),
    (forall s, store = Some s -> apiKey s = None) ->
    Config.BUILTWITH_API_KEY cfg = None ->
    (forall path params,
        run net store (requestBuiltWithJson cfg path params) = (Failed authMissing, [])) /\
    (forall tool input,
        In tool (server_tools (registered cfg)) ->
        run net store (tool_callback tool input) = (buildResponse authMissing, [])).
Proof.
  intros cfg net store Hs Hf.
  pose proof (no_credential cfg store Hs Hf) as Hnone.
  split.
  - intros path params. apply run_request_missing. now left.
  - intros tool input Hin. simpl in Hin.
    repeat (destruct Hin as [<- | Hin];
            [first [apply domainLookup_missing | apply handle_missing]; now left |]).
    contradiction.
Qed.

Lemma no_credential_example :
  run (Examples.answers Examples.two_paths) (Some {| apiKey := None |})
      (domainLookup Examples.cfg (Obj [("domain", Str "example.com")])) =
  (buildResponse authMissing, []).
Proof.
  refine (proj2 (no_credential_no_network_call Examples.cfg
                   (Examples.answers Examples.two_paths) (Some {| apiKey := None |}) _ _)
            {| tool_name := "domain-lookup";
               tool_description := "Returns the live web technologies used on the root domain name.";
               tool_schema := [("domain", Zod ZodString); ("liveOnly", Zod (ZodOptional ZodBoolean))];
               tool_callback := domainLookup Examples.cfg |}
            (Obj [("domain", Str "example.com")]) _).
  - intros s [= <-]. reflexivity.
  - reflexivity.
  - simpl. left. reflexivity.
Defined.

End MissingKeyFacts.

(* ===================================================================== *)
(** ** Flattening of technologies *)
(* ===================================================================== *)

Section TechnologyFacts.
Import Js Async Upstream Registry Spec.

Lemma inner_loop (technologies extracted : list value) :
  fold_left
    (fun extracted tech =>
       if negb (truthy tech) then extracted else push_technology extracted tech)
    technologies extracted =
  (extracted ++ map flat_record (filter truthy technologies))%list.
Proof.
  revert extracted. induction technologies as [| tech ts IH]; intros extracted; simpl.
  - now rewrite app_nil_r.
  - rewrite IH. destruct (truthy tech); simpl; [| reflexivity].
    unfold push_technology. rewrite <- app_assoc. reflexivity.
Qed.

Lemma outer_loop (ps extracted : list value) :
  fold_left
    (fun extracted p =>
       match member p "Technologies" with
       | Arr technologies =>
           fold_left
             (fun extracted tech =>
                if negb (truthy tech) then extracted else push_technology extracted tech)
             technologies extracted
       | _ => extracted
       end)
    ps extracted =
  (extracted ++ map flat_record (filter truthy (flat_map technologies_of ps)))%list.
Proof.
  revert extracted. induction ps as [| p ps IH]; intros extracted; simpl.
  - now rewrite app_nil_r.
  - rewrite IH, filter_app, map_app, app_assoc. f_equal.
    unfold technologies_of.
    destruct (member p "Technologies"); simpl; try (now rewrite app_nil_r).
    apply inner_loop.
Qed.

Lemma extractTechnologies_flat (data : value) :
  extractTechnologies data = map flat_record (filter truthy (technology_entries data)).
Proof.
  unfold extractTechnologies, technology_entries, paths_of.
  destruct (member (member (index0 (member data "Results")) "Result") "Paths");
    try reflexivity.
  apply outer_loop.
Qed.

(** C5, as amended.  For every upstream response, the normalizer produces
    one flattened record {Name, Description, Tag, Link} for each truthy
    technology entry (null and other falsy entries are skipped) found in the
    Technologies lists of the path objects under Results[0].Result.Paths, in
    the original order; so N truthy entries give exactly N records, and when
    every entry is truthy N is the number of entries.  A field is copied
    when truthy and is the empty string otherwise, in particular when it is
    absent from the entry. *)
Theorem technologies_flattened_in_order :
  forall data : value,
    extractTechnologies data = map flat_record (filter truthy (technology_entries data)) /\
    length (extractTechnologies data) = length (filter truthy (technology_entries data)) /\
    (forallb truthy (technology_entries data) = true ->
       length (extractTechnologies data) = length (technology_entries data)) /\
    (forall tech field,
       In field ["Name"; "Description"; "Tag"; "Link"] ->
       member (flat_record tech) field =
       if truthy (member tech field) then member tech field else Str EmptyString) /\
    (forall tech field,
       In field ["Name"; "Description"; "Tag"; "Link"] ->
       member tech field = Undefined ->
       member (flat_record tech) field = Str EmptyString).
Proof.
  intros data. rewrite extractTechnologies_flat.
  assert (Hfield : forall tech field,
             In field ["Name"; "Description"; "Tag"; "Link"] ->
             member (flat_record tech) field =
             if truthy (member tech field) then member tech field else Str EmptyString).
  { intros tech field Hin. simpl in Hin.
    destruct Hin as [<- | [<- | [<- | [<- | []]]]]; reflexivity. }
  split; [reflexivity |]. split; [apply length_map |]. split; [| split].
  - intros Hall. rewrite length_map. f_equal.
    induction (technology_entries data) as [| t ts IH]; simpl in *; [reflexivity |].
    apply andb_prop in Hall as [Ht Hts]. rewrite Ht, IH; auto.
  - exact Hfield.
  - intros tech field Hin Habs. rewrite (Hfield _ _ Hin), Habs. reflexivity.
Qed.

Example two_paths_flattened :
  extractTechnologies Examples.two_paths =
  [Obj [("Name", Str "jQuery"); ("Description", Str EmptyString);
        ("Tag", Str "javascript"); ("Link", Str EmptyString)];
   Obj [("Name", Str "nginx"); ("Description", Str EmptyString);
        ("Tag", Str EmptyString); ("Link", Str "https://nginx.org")];
   Obj [("Name", Str "Varnish"); ("Description", Str EmptyString);
        ("Tag", Str EmptyString); ("Link", Str EmptyString)]].
Proof. reflexivity. Qed.

(** C5 as stated fails: one Technologies list whose single entry is null
    holds one entry, and no record is produced. *)
Lemma null_entry_is_skipped :
  length (technology_entries Examples.null_entry) = 1%nat /\
  extractTechnologies Examples.null_entry = [].
Proof. split; reflexivity. Qed.

End TechnologyFacts.

(* ===================================================================== *)
(** ** Nothing detected *)
(* ===================================================================== *)

Section NothingFoundFacts.
Import Js Async Upstream Registry Spec.

Lemma no_list_no_technologies (data : value) :
  isArray (member (member (index0 (member data "Results")) "Result") "Paths") = false \/
  member (member (index0 (member data "Results")) "Result") "Paths" = Arr [] ->
  extractTechnologies data = [].
Proof.
  unfold extractTechnologies.
  destruct (member (member (index0 (member data "Results")) "Result") "Paths");
    intros [H | H]; try reflexivity; try discriminate.
  injection H as ->. reflexivity.
Qed.

(** The payloads the upstream client fails with. *)
Lemma marker_is_no_upstream_failure (o : FetchOutcome) (net : Url -> FetchOutcome)
    (store : option Store) (error : value) :
  fst (run net store (read_response o)) = Failed error \/ error = authMissing ->
  error <> noTechnologies.
Proof.
  intros [H | ->]; [| discriminate].
  destruct o as [err | status [data |]]; simpl in H.
  - injection H as <-. discriminate.
  - destruct (is_ok status); simpl in H; [discriminate |].
    injection H as <-. discriminate.
  - injection H as <-. discriminate.
Qed.

(** C6.  When the upstream call of domain-lookup succeeds with a body in
    which Paths is absent or not a list, or is the empty list, or more
    generally whose flattened technology sequence is empty, the tool returns
    the payload {error: No technologies found}: the upstream result is Ok,
    the returned text differs from that of the empty sequence, and the
    payload is none of those the upstream client fails with. *)
Theorem domain_lookup_marks_nothing_found :
  forall (cfg : Config.t) (net : Url -> FetchOutcome) (store : option Store)
         (input : value) (key : string) (status : Z) (data : value),
    currentApiKey cfg store = Some key ->
    key <> EmptyString ->
    net (request_url cfg key "v22/api.json" (domainLookupParams input))
      = FetchResolved status (Some data) ->
    is_ok status = true ->
    (isArray (member (member (index0 (member data "Results")) "Result") "Paths") = false \/
     member (member (index0 (member data "Results")) "Result") "Paths" = Arr [] \/
     extractTechnologies data = []) ->
    fst (run net store (requestBuiltWithJson cfg "v22/api.json" (domainLookupParams input)))
      = Ok data /\
    fst (run net store (domainLookup cfg input)) = buildResponse noTechnologies /\
    buildResponse noTechnologies <> buildResponse (Arr []) /\
    text_of noTechnologies =
      Str ("{" ++ quote "error" ++ ":" ++ quote "No technologies found" ++ "}") /\
    (forall o error,
        fst (run net store (read_response o)) = Failed error \/ error = authMissing ->
        error <> noTechnologies).
Proof.
  intros cfg net store input key status data Hkey Hne Hnet Hok Hempty.
  assert (He : extractTechnologies data = []).
  { destruct Hempty as [H | [H | H]]; [| | exact H];
      apply no_list_no_technologies; auto. }
  assert (Hreq : run net store (requestBuiltWithJson cfg "v22/api.json" (domainLookupParams input))
                 = (Ok data, [EvFetch (request_url cfg key "v22/api.json" (domainLookupParams input))])).
  { rewrite (run_request_keyed cfg net store _ _ key Hkey Hne), Hnet.
    rewrite (run_read_response_ok net store status data Hok). reflexivity. }
  split; [now rewrite Hreq |]. split; [| split; [| split]].
  - unfold domainLookup. rewrite run_bind, Hreq. cbn [fst snd]. rewrite He. reflexivity.
  - discriminate.
  - reflexivity.
  - intros o error. apply marker_is_no_upstream_failure.
Qed.

Lemma nothing_found_example :
  fst (run (Examples.answers Examples.no_paths) Examples.alice_store
         (domainLookup Examples.cfg (Obj [("domain", Str "example.com")]))) =
  buildResponse noTechnologies.
Proof.
  refine (proj1 (proj2 (domain_lookup_marks_nothing_found Examples.cfg
            (Examples.answers Examples.no_paths) Examples.alice_store
            (Obj [("domain", Str "example.com")]) "alice-key-0001" 200 Examples.no_paths
            _ _ _ _ _))).
  - reflexivity.
  - discriminate.
  - reflexivity.
  - reflexivity.
  - left. reflexivity.
Defined.

End NothingFoundFacts.

(* ===================================================================== *)
(** ** Catalog and discovery *)
(* ===================================================================== *)

Section CatalogFacts.
Import Js Async Upstream Registry Http Server Spec.

Lemma render_plain_field (f : SchemaField) :
  plain_field f = true -> render_field f = summary_of_field f.
Proof.
  destruct f as [z |]; [| reflexivity].
  destruct z as [| | | i | i]; try reflexivity; try discriminate.
  destruct i; try reflexivity; discriminate.
Qed.

(** Beyond those shapes the summary names the wrapper, not the type. *)
Remark render_nested_optional :
  render_field (Zod (ZodOptional (ZodOptional ZodString))) = "optional (optional)" /\
  summary_of_field (Zod (ZodOptional (ZodOptional ZodString))) = "string (optional)".
Proof. split; reflexivity. Qed.

Lemma obj_set_fresh (k : string) (v : value) (props : list (string * value)) :
  ~ In k (map fst props) -> obj_set k v props = (props ++ [(k, v)])%list.
Proof.
  induction props as [| [k' v'] props IH]; simpl; intros H; [reflexivity |].
  destruct (String.eqb_spec k' k) as [-> | Hk]; [tauto |].
  rewrite IH; tauto.
Qed.

Lemma schema_loop (fields : Schema) (out : list (string * value)) :
  NoDup (map fst fields) ->
  (forall k, In k (map fst fields) -> ~ In k (map fst out)) ->
  fold_left (fun out kv => obj_set (fst kv) (Str (render_field (snd kv))) out) fields out =
  (out ++ map (fun kv => (fst kv, Str (render_field (snd kv)))) fields)%list.
Proof.
  revert out. induction fields as [| [k f] fields IH]; intros out Hnd Hfresh; simpl.
  - now rewrite app_nil_r.
  - inversion Hnd as [| ? ? Hk Hnd']; subst.
    rewrite obj_set_fresh by (apply Hfresh; simpl; auto).
    rewrite IH; auto.
    + rewrite <- app_assoc. reflexivity.
    + intros k' Hk'. rewrite map_app, in_app_iff. simpl.
      intros [H | [<- | []]]; [| contradiction].
      apply (Hfresh k'); simpl; auto.
Qed.

(** What [registerJsonTool] leaves in the catalog for a schema of the
    shapes in use. *)
Lemma registerJsonTool_summary (cfg : Config.t) name description (schema : Schema)
    path buildParams (st : State) :
  NoDup (map fst schema) ->
  forallb plain_field (map snd schema) = true ->
  exists tool,
    tool_name tool = name /\ tool_description tool = description /\
    tool_schema tool = schema /\
    server_tools (registerJsonTool cfg name description schema path buildParams st)
      = (server_tools st ++ [tool])%list /\
    toolCatalog (registerJsonTool cfg name description schema path buildParams st)
      = (toolCatalog st ++ [summary_of tool])%list.
Proof.
  intros Hnd Hplain.
  assert (Hz : zodSchemaToJson (Some schema) =
               Obj (map (fun kv => (fst kv, Str (summary_of_field (snd kv)))) schema)).
  { unfold zodSchemaToJson. rewrite schema_loop by auto. cbn [app]. f_equal.
    clear Hnd. induction schema as [| [k f] schema IH]; simpl in *; [reflexivity |].
    apply andb_prop in Hplain as [Hf Hrest].
    rewrite (render_plain_field f Hf), IH; auto. }
  eexists. repeat split; try reflexivity.
  unfold registerJsonTool, summary_of, server_tool, catalog_push.
  cbn [toolCatalog tool_name tool_description tool_schema]. rewrite Hz. reflexivity.
Qed.

(** The parameters of a catalog entry, field by field. *)
Lemma summary_of_parameters (tool : Tool) (field : string) (z : ZodType) :
  lookup field (tool_schema tool) = Some (Zod z) ->
  member (member (summary_of tool) "parameters") field =
  Str (if isOptional z then declared_type z ++ " (optional)" else declared_type z).
Proof.
  unfold summary_of, entry. simpl.
  induction (tool_schema tool) as [| [k f] fields IH]; simpl; [discriminate |].
  destruct (String.eqb k field); [| exact IH].
  intros [= ->]. reflexivity.
Qed.

(** C8.  For every registered tool the discovery response surfaces exactly
    the declared name, exactly the declared description, and for each field
    of the input schema its declared type, marked optional exactly when the
    field accepts undefined.  First the registration itself: on any state,
    [registerJsonTool] with any name, description and schema of base types
    and their optional forms registers one tool with that name, description
    and schema, and adds to what discovery surfaces under tools one entry,
    last, which is that summary.  Then the program's registry: it holds 14
    tools, and the surfaced catalog is the list of their summaries, in
    registration order. *)
Theorem catalog_surfaces_registrations :
  forall cfg : Config.t,
    (forall name description (schema : Schema) path buildParams (st : State),
        NoDup (map fst schema) ->
        forallb plain_field (map snd schema) = true ->
        exists tool,
          tool_name tool = name /\ tool_description tool = description /\
          tool_schema tool = schema /\
          server_tools (registerJsonTool cfg name description schema path buildParams st)
            = (server_tools st ++ [tool])%list /\
          member (discovery (registerJsonTool cfg name description schema path buildParams st))
            "tools" = Arr (toolCatalog st ++ [summary_of tool]) /\
          member (summary_of tool) "name" = Str name /\
          member (summary_of tool) "description" = Str description /\
          forall field z,
            lookup field schema = Some (Zod z) ->
            member (member (summary_of tool) "parameters") field =
            Str (if isOptional z then declared_type z ++ " (optional)" else declared_type z)) /\
    length (server_tools (registered cfg)) = 14 /\
    member (discovery (registered cfg)) "tools" = Arr (toolCatalog (registered cfg)) /\
    toolCatalog (registered cfg) = map summary_of (server_tools (registered cfg)) /\
    (forall tool,
        In tool (server_tools (registered cfg)) ->
        In (summary_of tool) (toolCatalog (registered cfg)) /\
        member (summary_of tool) "name" = Str (tool_name tool) /\
        member (summary_of tool) "description" = Str (tool_description tool) /\
        forall field z,
          lookup field (tool_schema tool) = Some (Zod z) ->
          member (member (summary_of tool) "parameters") field =
          Str (if isOptional z then declared_type z ++ " (optional)" else declared_type z)).
Proof.
  intros cfg.
  assert (Hcat : toolCatalog (registered cfg) = map summary_of (server_tools (registered cfg)))
    by reflexivity.
  split.
  { intros name description schema path buildParams st Hnd Hplain.
    destruct (registerJsonTool_summary cfg name description schema path buildParams st
                Hnd Hplain) as [tool (Hn & Hd & Hs & Hst & Hc)].
    exists tool. split; [exact Hn |]. split; [exact Hd |]. split; [exact Hs |].
    split; [exact Hst |]. split.
    - unfold discovery. cbn [member lookup String.eqb Ascii.eqb Bool.eqb].
      rewrite Hc. reflexivity.
    - split; [rewrite <- Hn; reflexivity |]. split; [rewrite <- Hd; reflexivity |].
      intros field z Hl. apply summary_of_parameters. rewrite Hs. exact Hl. }
  split; [reflexivity |].
  split; [reflexivity |]. split; [exact Hcat |].
  intros tool Hin. split; [rewrite Hcat; now apply in_map |].
  split; [reflexivity |]. split; [reflexivity |].
  intros field z. apply summary_of_parameters.
Qed.

(** [registerJsonTool] on a schema with an optional boolean and a number. *)
Lemma catalog_registration_example :
  NoDup (map fst [("flag", Zod (ZodOptional ZodBoolean)); ("count", Zod ZodNumber)]) /\
  forallb plain_field
    (map snd [("flag", Zod (ZodOptional ZodBoolean)); ("count", Zod ZodNumber)]) = true /\
  member
    (discovery
       (registerJsonTool Examples.cfg "sample" "A sample tool."
          [("flag", Zod (ZodOptional ZodBoolean)); ("count", Zod ZodNumber)]
          "sample/api.json" (pick "flag" "FLAG") initial)) "tools" =
  Arr [Obj [("name", Str "sample"); ("description", Str "A sample tool.");
            ("parameters",
             Obj [("flag", Str "boolean (optional)"); ("count", Str "number")])]].
Proof.
  assert (Hnd : NoDup (map fst [("flag", Zod (ZodOptional ZodBoolean));
                                ("count", Zod ZodNumber)])).
  { repeat constructor; simpl; intuition discriminate. }
  split; [exact Hnd |]. split; [reflexivity |].
  destruct (proj1 (catalog_surfaces_registrations Examples.cfg) "sample" "A sample tool."
              [("flag", Zod (ZodOptional ZodBoolean)); ("count", Zod ZodNumber)]
              "sample/api.json" (pick "flag" "FLAG") initial Hnd eq_refl)
    as [tool (Hn & Hd & Hs & _ & Hdisc & _)].
  rewrite Hdisc. unfold summary_of. rewrite Hn, Hd, Hs. reflexivity.
Defined.

(** C10.  A GET request to /mcp is answered with the discovery document and
    starts nothing else, whatever its origin header and whatever the origin
    allowlist: two such requests that differ only in the origin header leave
    the same response. *)
Theorem discovery_ignores_origin :
  forall (cfg : Config.t) (st : State) (w : World) (req : Request) (o1 o2 : option string),
    method req = GET ->
    path req = "/mcp" ->
    log (arrive cfg st w (set_origin o1 req)) =
      (log w ++ [(length (arrived w), EvRespond 200 (discovery st))])%list /\
    tasks (arrive cfg st w (set_origin o1 req)) = tasks w /\
    log (arrive cfg st w (set_origin o1 req)) = log (arrive cfg st w (set_origin o2 req)) /\
    tasks (arrive cfg st w (set_origin o1 req)) = tasks (arrive cfg st w (set_origin o2 req)).
Proof.
  intros cfg st w req o1 o2 Hm Hp.
  assert (H : forall o, dispatch (set_origin o req) = Some DiscoveryHandler).
  { intros o. unfold dispatch, set_origin. simpl. rewrite Hm, Hp. reflexivity. }
  unfold arrive. rewrite (H o1), (H o2). simpl. auto.
Qed.

Lemma discovery_ignores_origin_example :
  Config.MCP_ALLOWED_ORIGINS Examples.cfg = ["https://app.example"] /\
  origin Examples.probe = Some "https://evil.example" /\
  log (arrive Examples.cfg (registered Examples.cfg) boot Examples.probe) =
  log (arrive Examples.cfg (registered Examples.cfg) boot (set_origin None Examples.probe)).
Proof.
  split; [reflexivity |]. split; [reflexivity |].
  exact (proj1 (proj2 (proj2
    (discovery_ignores_origin Examples.cfg (registered Examples.cfg) boot Examples.probe
       (Some "https://evil.example") None eq_refl eq_refl)))).
Defined.

End CatalogFacts.

(* ===================================================================== *)
(** ** Origin screening *)
(* ===================================================================== *)

Section OriginFacts.
Import Js Async Upstream Registry Http Server Spec.

Lemma validateOrigin_absent (cfg : Config.t) (req : Request) :
  origin req = None -> validateOrigin cfg req = OriginAdmitted.
Proof.
  intros H. unfold validateOrigin. rewrite H.
  destruct (Config.MCP_ALLOWED_ORIGINS cfg); reflexivity.
Qed.

Lemma validateOrigin_forbidden (cfg : Config.t) (req : Request) (o : string) :
  Config.MCP_ALLOWED_ORIGINS cfg <> [] ->
  origin req = Some o ->
  o <> EmptyString ->
  includes (Config.MCP_ALLOWED_ORIGINS cfg) o = false ->
  validateOrigin cfg req = OriginRejected 403 (Obj [("error", Str "Forbidden origin")]).
Proof.
  intros Hne Ho Hnonempty Hout. unfold validateOrigin. rewrite Ho.
  destruct (Config.MCP_ALLOWED_ORIGINS cfg) as [| a l] eqn:E; [contradiction |].
  destruct o as [| c r]; [contradiction |].
  rewrite Hout. reflexivity.
Qed.

(** C4, as amended.  For a request served by the MCP route: when the origin
    allowlist is non-empty and the request's origin header is present, not
    empty, and not in the allowlist, the only thing that ever happens for
    that request, under every schedule before and after it, is the 403
    response: no session, no registry lookup, no upstream call.  A request
    with no origin header is admitted whatever the allowlist holds, and a
    session is started for it. *)
Theorem forbidden_origin_rejected_at_boundary :
  forall (cfg : Config.t) (st : State) (net : Url -> FetchOutcome)
         (before after : list Label) (req : Request),
    dispatch req = Some McpHandler ->
    (origin req = None ->
       validateOrigin cfg req = OriginAdmitted /\
       exists task,
         In task (tasks (arrive cfg st (exec cfg st net boot before) req)) /\
         task_request task = length (arrived (exec cfg st net boot before)) /\
         task_context task = store_of req) /\
    (forall o,
       Config.MCP_ALLOWED_ORIGINS cfg <> [] ->
       origin req = Some o ->
       o <> EmptyString ->
       includes (Config.MCP_ALLOWED_ORIGINS cfg) o = false ->
       events_of (length (arrived (exec cfg st net boot before)))
         (exec cfg st net boot (before ++ Arrive req :: after)) =
         [EvRespond 403 (Obj [("error", Str "Forbidden origin")])] /\
       forall task,
         In task (tasks (exec cfg st net boot (before ++ Arrive req :: after))) ->
         task_request task <> length (arrived (exec cfg st net boot before))).
Proof.
  intros cfg st net before after req Hroute.
  set (w := exec cfg st net boot before).
  assert (Hb : bounded w) by (apply bounded_exec, bounded_boot).
  split.
  - intros Ho. split; [now apply validateOrigin_absent |].
    unfold arrive. rewrite Hroute, (validateOrigin_absent cfg req Ho).
    match goal with
    | |- context [advance ?c ?r ?m] => destruct (advance c r m) as [cont evs]
    end.
    eexists. split; [simpl; apply in_or_app; right; left; reflexivity |].
    split; reflexivity.
  - intros o Hne Ho Hnonempty Hout.
    rewrite exec_app. fold w. change (exec cfg st net w (Arrive req :: after))
      with (exec cfg st net (arrive cfg st w req) after).
    assert (Hs : settled (length (arrived w))
                   [EvRespond 403 (Obj [("error", Str "Forbidden origin")])]
                   (arrive cfg st w req)).
    { apply settled_by_response; [exact Hb |].
      unfold arrive. rewrite Hroute, (validateOrigin_forbidden cfg req o); auto. }
    apply (settled_exec cfg st net _ _ after) in Hs.
    destruct Hs as (_ & Htasks & Hev). split; assumption.
Qed.

Lemma forbidden_origin_example :
  events_of 1
    (exec Examples.cfg (registered Examples.cfg) (Examples.answers Examples.two_paths) boot
       ([Arrive Examples.alice] ++ Arrive Examples.stranger :: [Resume 0; Resume 0; Resume 0])) =
  [EvRespond 403 (Obj [("error", Str "Forbidden origin")])].
Proof.
  refine (proj1 (proj2 (forbidden_origin_rejected_at_boundary Examples.cfg
            (registered Examples.cfg) (Examples.answers Examples.two_paths)
            [Arrive Examples.alice] [Resume 0; Resume 0; Resume 0] Examples.stranger _)
          "https://evil.example" _ _ _ _)).
  - reflexivity.
  - discriminate.
  - reflexivity.
  - discriminate.
  - reflexivity.
Defined.

(** C4 as stated fails: with a non-empty allowlist, an origin header that
    is present and empty is in no allowlist, and the request is admitted:
    the registry is asked and an upstream call goes out. *)
Lemma blank_origin_is_admitted :
  Config.MCP_ALLOWED_ORIGINS Examples.cfg = ["https://app.example"] /\
  origin Examples.blank_origin = Some EmptyString /\
  includes (Config.MCP_ALLOWED_ORIGINS Examples.cfg) EmptyString = false /\
  validateOrigin Examples.cfg Examples.blank_origin = OriginAdmitted /\
  events_of 0
    (exec Examples.cfg (registered Examples.cfg) (Examples.answers Examples.no_paths) boot
       [Arrive Examples.blank_origin; Resume 0; Resume 0]) =
  [EvLookup "domain-lookup";
   EvFetch {| href := "https://api.builtwith.com/v22/api.json";
              searchParams := [("KEY", "alice-key-0001"); ("LOOKUP", "example.com");
                               ("LIVEONLY", "yes")] |}].
Proof. repeat split; reflexivity. Qed.

End OriginFacts.

(* ===================================================================== *)
(** ** Credentials under interleaving *)
(* ===================================================================== *)

Section CredentialFacts.
Import Js Async Upstream Registry Http Server Spec.

Variable cfg : Config.t.

Lemma keyed_bind {A B : Type} ctx (m : Async.t A) (f : A -> Async.t B) :
  keyed cfg ctx m -> (forall a, keyed cfg ctx (f a)) -> keyed cfg ctx (bind m f).
Proof.
  intros Hm Hf. induction Hm; simpl; try (constructor; auto).
  apply Hf.
Qed.

Lemma read_response_keyed ctx (o : FetchOutcome) : keyed cfg ctx (read_response o).
Proof.
  destruct o as [err | status [data |]]; simpl; repeat constructor.
  destruct (negb (is_ok status)); constructor.
Qed.

Lemma request_url_key (key path : string) (params : value) :
  ~ In "KEY" (map fst (Object_entries (or_else params (Obj [])))) ->
  lookup "KEY" (searchParams (request_url cfg key path params)) = Some key.
Proof.
  intros H. unfold request_url. rewrite add_params_keep by exact H. reflexivity.
Qed.

Lemma requestBuiltWithJson_keyed ctx (path : string) (params : value) :
  ~ In "KEY" (map fst (Object_entries (or_else params (Obj [])))) ->
  keyed cfg ctx (requestBuiltWithJson cfg path params).
Proof.
  intros H. unfold requestBuiltWithJson, getCurrentApiKey. cbn [bind].
  constructor. destruct (currentApiKey cfg ctx) as [[| c r] |] eqn:E; try constructor.
  - rewrite request_url_key by exact H. symmetry. exact E.
  - intros o. apply read_response_keyed.
Qed.

Lemma handleBuiltWithJson_keyed ctx (path : string) (params : value) :
  ~ In "KEY" (map fst (Object_entries (or_else params (Obj [])))) ->
  keyed cfg ctx (handleBuiltWithJson cfg path params).
Proof.
  intros H. unfold handleBuiltWithJson.
  apply keyed_bind; [now apply requestBuiltWithJson_keyed |].
  intros [data | err]; constructor.
Qed.

Lemma domainLookup_keyed ctx (input : value) : keyed cfg ctx (domainLookup cfg input).
Proof.
  unfold domainLookup. apply keyed_bind.
  - apply requestBuiltWithJson_keyed. simpl. intuition discriminate.
  - intros [data | err]; [| constructor].
    destruct (length (extractTechnologies data) =? 0)%nat; constructor.
Qed.

(** No registered tool sends a parameter named KEY. *)
Lemma registered_tools_keyed (tool : Tool) :
  In tool (server_tools (registered cfg)) ->
  forall ctx input, keyed cfg ctx (tool_callback tool input).
Proof.
  intros Hin ctx input. simpl in Hin.
  repeat (destruct Hin as [<- | Hin];
          [first [apply domainLookup_keyed
                 | apply handleBuiltWithJson_keyed; simpl; intuition discriminate] |]).
  contradiction.
Qed.

Lemma session_keyed ctx (req : Request) : keyed cfg ctx (session (registered cfg) req).
Proof.
  unfold session. do 2 constructor.
  destruct (call req) as [[name input] |]; [| constructor].
  constructor; [reflexivity |].
  destruct (find _ (server_tools (registered cfg))) as [tool |] eqn:Ef.
  - apply find_some in Ef as [Hin _].
    apply keyed_bind; [now apply registered_tools_keyed |].
    intros result. constructor; [reflexivity | constructor].
  - constructor; [reflexivity | constructor].
Qed.

Lemma advance_keyed ctx rid (m : Async.t unit) :
  keyed cfg ctx m ->
  keyed cfg ctx (fst (advance ctx rid m)) /\
  forall r url, In (r, EvFetch url) (snd (advance ctx rid m)) ->
                lookup "KEY" (searchParams url) = currentApiKey cfg ctx.
Proof.
  intros H. induction H as [a | k Hk IH | url k Hurl Hk IH | k Hk IH | e k He Hk IH]; simpl.
  - split; [constructor | intros ? ? []].
  - exact IH.
  - split; [now constructor |]. intros r u [Heq | []].
    inversion Heq; subst. exact Hurl.
  - split; [now constructor | intros ? ? []].
  - destruct (advance ctx rid k) as [m' evs]. simpl in *.
    split; [apply IH |]. intros r u [Heq | Hin]; [| eapply IH; eauto].
    inversion Heq; subst. discriminate.
Qed.

Lemma settle_keyed ctx net (m m' : Async.t unit) :
  keyed cfg ctx m -> settle net m = Some m' -> keyed cfg ctx m'.
Proof.
  intros H. destruct H; simpl; intros [= <-]; auto; constructor; auto.
Qed.

Lemma credentialed_older (w : World) (req : Request) (ts : list Task) (evs : list (nat * Event)) :
  bounded w -> credentialed cfg w ->
  (forall task, In task ts -> task_request task = length (arrived w) /\
                              task_context task = store_of req /\
                              keyed cfg (task_context task) (task_cont task)) ->
  (forall rid url, In (rid, EvFetch url) evs ->
                   rid = length (arrived w) /\
                   lookup "KEY" (searchParams url) = currentApiKey cfg (store_of req)) ->
  credentialed cfg
    {| current := current w; tasks := tasks w ++ ts;
       arrived := arrived w ++ [req]; log := log w ++ evs |}.
Proof.
  intros Hb [It Il] Hts Hevs.
  assert (Hold : forall n r, nth_error (arrived w) n = Some r ->
                   nth_error (arrived w ++ [req]) n = Some r).
  { intros n r H. rewrite nth_error_app1; [exact H |].
    apply nth_error_Some. congruence. }
  assert (Hnew : nth_error (arrived w ++ [req]) (length (arrived w)) = Some req).
  { rewrite nth_error_app2, Nat.sub_diag by lia. reflexivity. }
  split; cbn [tasks arrived log].
  - intros task Hin. apply in_app_or in Hin as [Hin | Hin].
    + destruct (It task Hin) as (r & H1 & H2 & H3). exists r. auto.
    + destruct (Hts task Hin) as (H1 & H2 & H3). exists req. rewrite H1. auto.
  - intros rid url Hin. apply in_app_or in Hin as [Hin | Hin].
    + destruct (Il rid url Hin) as (r & H1 & H2). exists r. auto.
    + destruct (Hevs rid url Hin) as (-> & H2). exists req. auto.
Qed.

Lemma credentialed_arrive (w : World) (req : Request) :
  bounded w -> credentialed cfg w -> credentialed cfg (arrive cfg (registered cfg) w req).
Proof.
  intros Hb Hc. unfold arrive.
  assert (Hresp : forall status body,
            credentialed cfg
              {| current := current w; tasks := tasks w;
                 arrived := arrived w ++ [req];
                 log := log w ++ [(length (arrived w), EvRespond status body)] |}).
  { intros status body. rewrite <- (app_nil_r (tasks w)).
    apply credentialed_older; auto.
    - intros ? [].
    - intros rid url [Heq | []]. inversion Heq. }
  destruct (dispatch req) as [[| |] |]; try apply Hresp.
  destruct (validateOrigin cfg req); [| apply Hresp].
  cbn [current with_current].
  pose proof (advance_keyed (store_of req) (length (arrived w))
                (session (registered cfg) req) (session_keyed _ req)) as [Hk Hev].
  pose proof (advance_tags (store_of req) (length (arrived w))
                (session (registered cfg) req)) as Htag.
  unfold store_of in Hk, Hev, Htag at 1.
  destruct (advance _ (length (arrived w)) (session (registered cfg) req)) as [cont evs].
  cbn [fst snd] in *.
  apply credentialed_older; auto.
  - intros task [<- | []]. cbn [task_request task_context task_cont]. auto.
  - intros rid url Hin. split; [exact (Htag _ Hin) | exact (Hev _ _ Hin)].
Qed.

Lemma credentialed_resume (net : Url -> FetchOutcome) (w : World) (i : nat) :
  credentialed cfg w -> credentialed cfg (resume net w i).
Proof.
  intros Hc. unfold resume.
  destruct (nth_error (tasks w) i) as [task |] eqn:En; [| exact Hc].
  destruct (settle net (task_cont task)) as [m |] eqn:Es; [| exact Hc].
  destruct Hc as [It Il].
  destruct (It task (nth_error_In _ _ En)) as (req & Hreq & Hctx & Hkeyed).
  cbn [current with_current].
  pose proof (advance_keyed (task_context task) (task_request task) m
                (settle_keyed _ net _ _ Hkeyed Es)) as [Hk Hev].
  pose proof (advance_tags (task_context task) (task_request task) m) as Htag.
  destruct (advance (task_context task) (task_request task) m) as [cont evs].
  cbn [fst snd] in *.
  split; cbn [tasks arrived log].
  - intros t Hin. apply In_replace_nth in Hin as [-> | Hin]; [| now apply It].
    exists req. cbn [task_request task_context task_cont]. auto.
  - intros rid url Hin. apply in_app_or in Hin as [Hin | Hin]; [now apply Il |].
    exists req. rewrite (Htag _ Hin : rid = task_request task).
    split; [exact Hreq |]. rewrite <- Hctx. exact (Hev _ _ Hin).
Qed.

Lemma credentials_invariant (net : Url -> FetchOutcome) (schedule : list Label) :
  credentialed cfg (exec cfg (registered cfg) net boot schedule).
Proof.
  induction schedule as [| l ls IH] using rev_ind;
    [split; [intros ? [] | intros ? ? []] |].
  rewrite exec_app.
  change (exec cfg (registered cfg) net ?w [l]) with (step cfg (registered cfg) net w l).
  destruct l as [req | i]; cbn [step].
  - apply credentialed_arrive; [apply bounded_exec, bounded_boot | exact IH].
  - apply credentialed_resume, IH.
Qed.

Lemma extracted_key_nonempty (req : Request) (k : string) :
  extractBearerApiKeyOptional req = Some k -> k <> EmptyString.
Proof.
  rewrite extract_is_bearer_credential. unfold bearer_credential.
  destruct (authorization req) as [h |]; [| discriminate].
  destruct (post_prefix h) as [v |]; [| discriminate].
  destruct (forallb_string _ v); [| discriminate].
  destruct (in_range (trimEnd v)) eqn:Er; [| discriminate].
  intros [= <-] E. rewrite E in Er. discriminate.
Qed.

Lemma own_key_resolves (req : Request) (k : string) :
  extractBearerApiKeyOptional req = Some k ->
  currentApiKey cfg (store_of req) = Some k.
Proof.
  intros H. pose proof (extracted_key_nonempty req k H) as Hne.
  unfold store_of, currentApiKey. rewrite H.
  destruct k; [contradiction | reflexivity].
Qed.

(** C1.  Under every schedule of arrivals and resumptions, for two requests
    served with distinct bearer credentials, every upstream call issued on
    behalf of one of them carries that request's own credential as KEY and
    not the other's, and at every suspension the context kept for the
    request's continuation is the store holding its own credential. *)
Theorem concurrent_requests_keep_their_credentials :
  forall (net : Url -> FetchOutcome) (schedule : list Label)
         (r1 r2 : nat) (req1 req2 : Request) (k1 k2 : string),
    nth_error (arrived (exec cfg (registered cfg) net boot schedule)) r1 = Some req1 ->
    nth_error (arrived (exec cfg (registered cfg) net boot schedule)) r2 = Some req2 ->
    extractBearerApiKeyOptional req1 = Some k1 ->
    extractBearerApiKeyOptional req2 = Some k2 ->
    k1 <> k2 ->
    (forall url,
        In (r1, EvFetch url) (log (exec cfg (registered cfg) net boot schedule)) ->
        lookup "KEY" (searchParams url) = Some k1 /\
        lookup "KEY" (searchParams url) <> Some k2) /\
    (forall url,
        In (r2, EvFetch url) (log (exec cfg (registered cfg) net boot schedule)) ->
        lookup "KEY" (searchParams url) = Some k2 /\
        lookup "KEY" (searchParams url) <> Some k1) /\
    (forall task,
        In task (tasks (exec cfg (registered cfg) net boot schedule)) ->
        (task_request task = r1 -> task_context task = Some {| apiKey := Some k1 |}) /\
        (task_request task = r2 -> task_context task = Some {| apiKey := Some k2 |})).
Proof.
  intros net schedule r1 r2 req1 req2 k1 k2 Hr1 Hr2 Hk1 Hk2 Hne.
  destruct (credentials_invariant net schedule) as [It Il].
  assert (Hcall : forall r req k url,
            nth_error (arrived (exec cfg (registered cfg) net boot schedule)) r = Some req ->
            extractBearerApiKeyOptional req = Some k ->
            In (r, EvFetch url) (log (exec cfg (registered cfg) net boot schedule)) ->
            lookup "KEY" (searchParams url) = Some k).
  { intros r req k url Hr Hk Hin. destruct (Il r url Hin) as (req' & Hr' & Hkey).
    rewrite Hr in Hr'. injection Hr' as <-. rewrite Hkey. now apply own_key_resolves. }
  assert (Htask : forall r req k task,
            nth_error (arrived (exec cfg (registered cfg) net boot schedule)) r = Some req ->
            extractBearerApiKeyOptional req = Some k ->
            In task (tasks (exec cfg (registered cfg) net boot schedule)) ->
            task_request task = r -> task_context task = Some {| apiKey := Some k |}).
  { intros r req k task Hr Hk Hin Hreq. destruct (It task Hin) as (req' & Hr' & Hctx & _).
    rewrite Hreq, Hr in Hr'. injection Hr' as <-. rewrite Hctx. unfold store_of.
    now rewrite Hk. }
  split; [| split].
  - intros url Hin. rewrite (Hcall r1 req1 k1 url Hr1 Hk1 Hin).
    split; [reflexivity | congruence].
  - intros url Hin. rewrite (Hcall r2 req2 k2 url Hr2 Hk2 Hin).
    split; [reflexivity | congruence].
  - intros task Hin. split; intros Hreq; eauto.
Qed.

End CredentialFacts.

(** Two sessions whose awaits interleave: the call of the second request
    goes out while the first is suspended, and the other way round. *)
Lemma interleaved_requests_example :
  Server.log (Server.exec Examples.cfg (Registry.registered Examples.cfg)
         (Examples.answers Examples.no_paths) Server.boot
         [Server.Arrive Examples.alice; Server.Arrive Examples.bob;
          Server.Resume 0; Server.Resume 1; Server.Resume 1; Server.Resume 0])
  = [(1, Async.EvLookup "domain-lookup");
     (1, Async.EvFetch
           {| Async.href := "https://api.builtwith.com/v22/api.json";
              Async.searchParams := [("KEY", "bob-key-000002"); ("LOOKUP", "example.com");
                                     ("LIVEONLY", "yes")] |});
     (0, Async.EvLookup "domain-lookup");
     (0, Async.EvFetch
           {| Async.href := "https://api.builtwith.com/v22/api.json";
              Async.searchParams := [("KEY", "alice-key-0001"); ("LOOKUP", "example.com");
                                     ("LIVEONLY", "yes")] |})]
  /\
  forall url,
    In (0, Async.EvFetch url)
       (Server.log (Server.exec Examples.cfg (Registry.registered Examples.cfg)
               (Examples.answers Examples.no_paths) Server.boot
               [Server.Arrive Examples.alice; Server.Arrive Examples.bob;
                Server.Resume 0; Server.Resume 1; Server.Resume 1; Server.Resume 0])) ->
    Js.lookup "KEY" (Async.searchParams url) = Some "alice-key-0001" /\
    Js.lookup "KEY" (Async.searchParams url) <> Some "bob-key-000002".
Proof.
  split; [reflexivity |].
  refine (proj1 (concurrent_requests_keep_their_credentials Examples.cfg
            (Examples.answers Examples.no_paths)
            [Server.Arrive Examples.alice; Server.Arrive Examples.bob;
             Server.Resume 0; Server.Resume 1; Server.Resume 1; Server.Resume 0]
            0 1 Examples.alice Examples.bob "alice-key-0001" "bob-key-000002" _ _ _ _ _)).
  - reflexivity.
  - reflexivity.
  - reflexivity.
  - reflexivity.
  - discriminate.
Defined.

(* ===================================================================== *)
(** ** Further properties: configuration and screening *)
(* ===================================================================== *)

Section ScreeningCoverage.
Import Js Async Upstream Registry Http Server Spec Coverage.

Lemma includes_In (l : list string) (o : string) : includes l o = true <-> In o l.
Proof.
  unfold includes. rewrite existsb_exists. split.
  - intros (x & Hin & Heq). apply String.eqb_eq in Heq. now subst.
  - intros Hin. exists o. split; [exact Hin | apply String.eqb_refl].
Qed.

(** X1.  [validateOrigin] rejects exactly when the allowlist is not empty and
    the origin header is a non-empty string that is not, character for
    character, an element of the allowlist; it then answers 403 with
    {error: Forbidden origin}.  In every other case the request is let
    through: in particular always when the allowlist is empty. *)
Theorem validateOrigin_rejects_iff :
  forall (cfg : Config.t) (req : Request) (status : Z) (body : value),
    validateOrigin cfg req = OriginRejected status body <->
    (Config.MCP_ALLOWED_ORIGINS cfg <> [] /\
     (exists o, origin req = Some o /\ o <> EmptyString /\
                ~ In o (Config.MCP_ALLOWED_ORIGINS cfg)) /\
     status = 403%Z /\ body = Obj [("error", Str "Forbidden origin")]).
Proof.
  intros cfg req status body. unfold validateOrigin.
  destruct (Config.MCP_ALLOWED_ORIGINS cfg) as [| a l] eqn:El.
  - split; [discriminate | intros [H _]; now contradiction H].
  - destruct (origin req) as [[| c r] |] eqn:Eo.
    + split; [discriminate |].
      intros (_ & (o & Ho & Hne & _) & _). injection Ho as <-. now contradiction Hne.
    + destruct (includes (a :: l) (String c r)) eqn:Ei; simpl.
      * split; [discriminate |].
        intros (_ & (o & Ho & _ & Hout) & _). injection Ho as <-.
        apply includes_In in Ei. contradiction.
      * split.
        -- intros [= <- <-]. split; [discriminate |]. split; [| split; reflexivity].
           exists (String c r). split; [reflexivity |]. split; [discriminate |].
           intros Hin. apply (proj2 (includes_In (a :: l) (String c r))) in Hin.
           congruence.
        -- intros (_ & _ & -> & ->). reflexivity.
    + split; [discriminate |]. intros (_ & (o & Ho & _) & _). discriminate.
Qed.

Lemma trimEnd_idem (s : string) : trimEnd (trimEnd s) = trimEnd s.
Proof.
  induction s as [| c r IH]; simpl; [reflexivity |].
  destruct (trimEnd r) as [| c' r'] eqn:E.
  - destruct (isWhiteSpace c) eqn:Ec; simpl; [reflexivity |]. now rewrite Ec.
  - simpl in *. rewrite IH. reflexivity.
Qed.

Lemma trimEnd_keeps_start (s : string) : trimStart s = s -> trimStart (trimEnd s) = trimEnd s.
Proof.
  destruct s as [| c r]; simpl; [reflexivity |].
  destruct (isWhiteSpace c) eqn:Ec.
  - (* a string that starts with white space is not its own trimStart *)
    intros H. exfalso.
    assert (Hlen : forall u : string, String.length (trimStart u) <= String.length u).
    { induction u as [| d u IHu]; simpl; [lia |].
      destruct (isWhiteSpace d); simpl; lia. }
    specialize (Hlen r). rewrite H in Hlen. simpl in Hlen. lia.
  - intros _. destruct (trimEnd r); simpl; now rewrite Ec.
Qed.

Lemma trim_idem (s : string) : trim (trim s) = trim s.
Proof.
  unfold trim. rewrite (trimEnd_keeps_start (trimStart s) (trimStart_idem s)).
  apply trimEnd_idem.
Qed.

Lemma forallb_trimEnd p (s : string) :
  forallb_string p s = true -> forallb_string p (trimEnd s) = true.
Proof.
  induction s as [| c r IH]; simpl; [auto |].
  intros H. apply andb_prop in H as [Hc Hr]. specialize (IH Hr).
  destruct (trimEnd r) eqn:E.
  - destruct (isWhiteSpace c); simpl; [reflexivity | now rewrite Hc].
  - simpl in *. now rewrite Hc, IH.
Qed.

Lemma split_comma_no_comma (s piece : string) :
  In piece (split_comma s) -> no_comma piece = true.
Proof.
  revert piece. induction s as [| c r IH]; simpl; intros piece.
  - intros [<- | []]. reflexivity.
  - destruct (Ascii.eqb c ","%char) eqn:Ec.
    + intros [<- | H]; [reflexivity | now apply IH].
    + destruct (split_comma r) as [| w ws] eqn:Es.
      * intros [<- | []]. unfold no_comma. simpl. now rewrite Ec.
      * intros [<- | H].
        -- unfold no_comma. simpl. rewrite Ec. simpl. apply (IH w). now left.
        -- apply IH. now right.
Qed.

(** X2.  The origin allowlist read from MCP_ALLOWED_ORIGINS holds exactly the
    non-empty trimmed pieces of the comma-separated value: every element is
    non-empty, has no white space at either end and no comma, and an unset
    or empty variable gives the empty allowlist. *)
Theorem allowlist_entries_are_trimmed_pieces :
  forall (env : Config.Env) (e : string),
    (In e (Config.MCP_ALLOWED_ORIGINS (Config.load env)) <->
     e <> EmptyString /\
     exists piece,
       In piece (split_comma (Config.env_or (Config.env_MCP_ALLOWED_ORIGINS env)
                                (fun s => s) EmptyString)) /\
       e = trim piece) /\
    (In e (Config.MCP_ALLOWED_ORIGINS (Config.load env)) ->
     trim e = e /\ no_comma e = true) /\
    ((Config.env_MCP_ALLOWED_ORIGINS env = None \/
      Config.env_MCP_ALLOWED_ORIGINS env = Some EmptyString) ->
     Config.MCP_ALLOWED_ORIGINS (Config.load env) = []).
Proof.
  intros env e.
  assert (Hiff : In e (Config.MCP_ALLOWED_ORIGINS (Config.load env)) <->
                 e <> EmptyString /\
                 exists piece,
                   In piece (split_comma (Config.env_or (Config.env_MCP_ALLOWED_ORIGINS env)
                                            (fun s => s) EmptyString)) /\
                   e = trim piece).
  { simpl. rewrite filter_In, in_map_iff. split.
    - intros [(piece & <- & Hin) Hne]. split.
      + intros E. rewrite E in Hne. discriminate.
      + exists piece. auto.
    - intros (Hne & piece & Hin & ->). split; [exists piece; auto |].
      destruct (trim piece); [contradiction | reflexivity]. }
  split; [exact Hiff |]. split.
  - intros Hin. apply Hiff in Hin as (_ & piece & Hin & ->). split.
    + apply trim_idem.
    + unfold trim, no_comma. apply forallb_trimEnd, forallb_trimStart.
      exact (split_comma_no_comma _ _ Hin).
  - intros [E | E]; simpl; rewrite E; reflexivity.
Qed.

Lemma allowlist_example :
  Config.MCP_ALLOWED_ORIGINS cfg_with_key = ["https://app.example"; "https://b.example"] /\
  trim "https://b.example" = "https://b.example".
Proof.
  split; [reflexivity |].
  refine (proj1 (proj1 (proj2 (allowlist_entries_are_trimmed_pieces
    {| Config.env_BUILTWITH_API_KEY := Some "process-key-01";
       Config.env_BUILTWITH_API_HOSTNAME := Some "upstream.test";
       Config.env_MCP_ALLOWED_ORIGINS := Some " https://app.example , ,https://b.example" |}
    "https://b.example")) _)).
  simpl. right. left. reflexivity.
Defined.

(** X3.  A credential that [extractBearerApiKeyOptional] returns is 10 to 256
    code units long, has no white space at either end and holds no line
    break. *)
Theorem extracted_key_is_clean :
  forall (req : Request) (key : string),
    extractBearerApiKeyOptional req = Some key ->
    (10 <= String.length key <= 256)%nat /\
    trim key = key /\
    forallb_string (fun c => negb (isLineTerminator c)) key = true.
Proof.
  intros req key. rewrite extract_is_bearer_credential. unfold bearer_credential.
  destruct (authorization req) as [h |]; [| discriminate].
  destruct (post_prefix h) as [v |] eqn:Ev; [| discriminate].
  destruct (forallb_string _ v) eqn:Ef; [| discriminate].
  destruct (in_range (trimEnd v)) eqn:Er; [| discriminate].
  intros [= <-].
  unfold in_range in Er. apply andb_prop in Er as [E1 E2].
  apply Nat.leb_le in E1. apply Nat.leb_le in E2.
  split; [lia |]. split.
  - assert (Hs : trimStart v = v).
    { unfold post_prefix in Ev.
      destruct (String.eqb _ "bearer"); [| discriminate].
      destruct (dropn 6 h) as [| c r]; [discriminate |].
      destruct (isWhiteSpace c); [| discriminate].
      injection Ev as <-. apply trimStart_idem. }
    unfold trim. rewrite (trimEnd_keeps_start v Hs). apply trimEnd_idem.
  - now apply forallb_trimEnd.
Qed.

Lemma extracted_key_example :
  (10 <= String.length "alice-key-0001" <= 256)%nat /\
  trim "alice-key-0001" = "alice-key-0001".
Proof.
  refine ((fun H => conj (proj1 H) (proj1 (proj2 H)))
            (extracted_key_is_clean
               {| method := POST; path := "/mcp"; origin := None;
                  authorization := Some "bEaReR   alice-key-0001  "; call := None |}
               "alice-key-0001" _)).
  reflexivity.
Defined.

End ScreeningCoverage.

(* ===================================================================== *)
(** ** Further properties: the upstream client and the tools *)
(* ===================================================================== *)

Section UpstreamCoverage.
Import Js Async Upstream Registry Http Server Spec Coverage.

Variable cfg : Config.t.
Variable net : Url -> FetchOutcome.
Variable store : option Store.

(** X4.  With a credential, the upstream client succeeds exactly when the
    call settles with a status from 200 to 299 and a JSON body, and then
    returns that body; when it fails, the error message tells the cause: the
    call was rejected, the body was not JSON (whatever the status), or the
    status was outside 200 to 299. *)
Theorem upstream_result_tells_the_cause :
  forall (path : string) (params : value) (key : string),
    currentApiKey cfg store = Some key ->
    key <> EmptyString ->
    (forall data,
        fst (run net store (requestBuiltWithJson cfg path params)) = Ok data <->
        exists status,
          net (request_url cfg key path params) = FetchResolved status (Some data) /\
          (200 <= status <= 299)%Z) /\
    (forall error,
        fst (run net store (requestBuiltWithJson cfg path params)) = Failed error ->
        exists msg,
          member error "error" = Str msg /\
          (msg = "Failed to reach BuiltWith API." <->
           exists e, net (request_url cfg key path params) = FetchRejected e) /\
          (msg = "BuiltWith API did not return JSON." <->
           exists status, net (request_url cfg key path params) = FetchResolved status None) /\
          (msg = "BuiltWith API error." <->
           exists status data,
             net (request_url cfg key path params) = FetchResolved status (Some data) /\
             ~ (200 <= status <= 299)%Z)).
Proof.
  intros path params key Hkey Hne.
  rewrite (run_request_keyed cfg net store path params key Hkey Hne). cbn [fst].
  assert (Hok : forall status, is_ok status = true <-> (200 <= status <= 299)%Z).
  { intros status. unfold is_ok. rewrite andb_true_iff, !Z.leb_le. tauto. }
  split.
  - intros data.
    destruct (net (request_url cfg key path params)) as [e | status [body |]] eqn:En; simpl.
    + split; [discriminate | intros (s & H & _); discriminate].
    + destruct (is_ok status) eqn:Es; simpl.
      * split.
        { intros [= <-]. exists status. split; [reflexivity | now apply Hok]. }
        { intros (s & [= <- <-] & _). reflexivity. }
      * split; [discriminate |].
        intros (s & [= <- <-] & Hr). apply Hok in Hr. congruence.
    + split; [discriminate | intros (s & H & _); discriminate].
  - intros error.
    destruct (net (request_url cfg key path params)) as [e | status [body |]] eqn:En; simpl;
      [| destruct (is_ok status) eqn:Es; simpl; [discriminate |] |];
      intros [= <-]; (eexists; split; [reflexivity |]);
      (split; [| split]);
      (split;
       [ first [ discriminate
               | intros _; eauto; fail
               | intros _; exists status, body; split; [reflexivity |];
                 intros Hr; apply Hok in Hr; congruence ]
       | intros H; first [ reflexivity | decompose [ex and] H; discriminate ] ]).
Qed.

Lemma sent_pairs_names (props : list (string * value)) (n v : string) :
  In (n, v) (sent_pairs props) -> In n (map fst props) /\ v <> EmptyString.
Proof.
  intros H. apply sent_pairs_spec in H as (x & Hin & _ & _ & Hs & ->).
  split; [| exact Hs]. apply in_map_iff. exists (n, x). auto.
Qed.

Lemma handle_trace (path field KEY : string) (input : value) (key : string) :
  currentApiKey cfg store = Some key -> key <> EmptyString ->
  KEY <> "KEY" ->
  snd (run net store (handleBuiltWithJson cfg path (pick field KEY input))) =
  [EvFetch {| href := "https://" ++ Config.BUILTWITH_API_HOSTNAME cfg ++ "/" ++ path;
              searchParams := ("KEY", key) :: sent_pairs [(KEY, member input field)] |}].
Proof.
  intros Hkey Hne HK. unfold handleBuiltWithJson. rewrite run_bind.
  rewrite (run_request_keyed cfg net store _ _ key Hkey Hne). cbn [fst snd].
  unfold pick. rewrite request_url_shape.
  - destruct (fst (run net store (read_response _))); reflexivity.
  - repeat constructor. simpl. tauto.
  - simpl. intros [E | []]. congruence.
Qed.

Lemma domainLookup_trace (input : value) (key : string) :
  currentApiKey cfg store = Some key -> key <> EmptyString ->
  snd (run net store (domainLookup cfg input)) =
  [EvFetch {| href := "https://" ++ Config.BUILTWITH_API_HOSTNAME cfg ++ "/" ++ "v22/api.json";
              searchParams :=
                ("KEY", key) ::
                sent_pairs [("LOOKUP", member input "domain");
                            ("LIVEONLY", if strict_eq_bool (member input "liveOnly") false
                                         then Undefined else Str "yes")] |}].
Proof.
  intros Hkey Hne. unfold domainLookup. rewrite run_bind.
  rewrite (run_request_keyed cfg net store _ _ key Hkey Hne). cbn [fst snd].
  unfold domainLookupParams. rewrite request_url_shape.
  - destruct (fst (run net store (read_response _))) as [data | err]; simpl;
      [destruct (length (extractTechnologies data) =? 0)%nat |]; reflexivity.
  - repeat constructor; simpl; intuition discriminate.
  - simpl; intuition discriminate.
Qed.

(** X5.  With a credential, every registered tool issues exactly one network
    call, to https://hostname/ followed by one of the thirteen upstream
    paths; its query starts with the credential as KEY and holds at most two
    further parameters, named as the integration table names them and never
    empty.  The input decides values only: it reaches neither the host, the
    path nor a parameter name. *)
Theorem tool_call_goes_to_a_fixed_endpoint :
  forall (tool : Tool) (input : value) (key : string),
    In tool (server_tools (registered cfg)) ->
    currentApiKey cfg store = Some key ->
    key <> EmptyString ->
    exists p rest,
      In p upstream_paths /\
      snd (run net store (tool_callback tool input)) =
        [EvFetch {| href := "https://" ++ Config.BUILTWITH_API_HOSTNAME cfg ++ "/" ++ p;
                    searchParams := ("KEY", key) :: rest |}] /\
      length rest <= 2 /\
      (forall n v, In (n, v) rest -> In n upstream_names /\ v <> EmptyString).
Proof.
  intros tool input key Hin Hkey Hne. simpl in Hin.
  assert (Hlen : forall props : list (string * value),
             length (sent_pairs props) <= length props).
  { intros props. unfold sent_pairs. rewrite length_map. apply filter_length_le. }
  assert (Hnames : forall props n v,
             (forall k, In k (map fst props) -> In k upstream_names) ->
             In (n, v) (sent_pairs props) -> In n upstream_names /\ v <> EmptyString).
  { intros props n v Hsub H. apply sent_pairs_names in H as [H1 H2]. auto. }
  destruct Hin as [<- | Hin].
  { eexists _, _. split; [| split; [apply (domainLookup_trace input key Hkey Hne) | split]].
    - simpl. auto.
    - etransitivity; [apply Hlen | simpl; lia].
    - intros n v. apply Hnames. simpl. intuition (subst; auto). }
  repeat (destruct Hin as [<- | Hin];
    [ eexists _, _;
      split; [| split; [apply (handle_trace _ _ _ input key Hkey Hne); discriminate | split]];
      [ simpl; auto 20
      | etransitivity; [apply Hlen | simpl; lia]
      | intros n v; apply Hnames; simpl; intuition (subst; auto) ] |]).
  contradiction.
Qed.

End UpstreamCoverage.

Lemma tool_call_example :
  exists p rest,
    In p Coverage.upstream_paths /\
    snd (Async.run (Examples.answers Examples.no_paths) None
           (Upstream.handleBuiltWithJson Coverage.cfg_with_key "trends/v6/api.json"
              (Registry.pick "tech" "TECH" (Js.Obj [("tech", Js.Str "Shopify")])))) =
      [Async.EvFetch {| Async.href := "https://upstream.test/" ++ p;
                        Async.searchParams := ("KEY", "process-key-01") :: rest |}] /\
    length rest <= 2.
Proof.
  destruct (tool_call_goes_to_a_fixed_endpoint Coverage.cfg_with_key
              (Examples.answers Examples.no_paths) None
              {| Registry.tool_name := "trends-api";
                 Registry.tool_description := "Trends API JSON lookup for technology trend data.";
                 Registry.tool_schema := [("tech", Registry.Zod Registry.ZodString)];
                 Registry.tool_callback := fun input =>
                   Upstream.handleBuiltWithJson Coverage.cfg_with_key "trends/v6/api.json"
                     (Registry.pick "tech" "TECH" input) |}
              (Js.Obj [("tech", Js.Str "Shopify")]) "process-key-01")
    as (p & rest & Hp & Hrun & Hlen & _).
  - simpl. do 9 right. left. reflexivity.
  - reflexivity.
  - discriminate.
  - exists p, rest. repeat split; assumption.
Defined.

Lemma upstream_result_example :
  fst (Async.run (Examples.answers Examples.no_paths) Examples.alice_store
         (Upstream.requestBuiltWithJson Examples.cfg "v22/api.json" Js.Undefined)) =
  Upstream.Ok Examples.no_paths.
Proof.
  apply (proj1 (upstream_result_tells_the_cause Examples.cfg
                  (Examples.answers Examples.no_paths) Examples.alice_store
                  "v22/api.json" Js.Undefined "alice-key-0001" eq_refl
                  (fun H => eq_ind "alice-key-0001"%string
                              (fun s => match s with EmptyString => False | _ => True end)
                              I _ H))
               Examples.no_paths).
  exists 200%Z. split; [reflexivity | lia].
Defined.

Section ToolCoverage.
Import Js Async Upstream Registry Http Server Spec Coverage.

Variable cfg : Config.t.
Variable store : option Store.

Lemma handle_result (net : Url -> FetchOutcome) (path : string) (params : value) (key : string) :
  currentApiKey cfg store = Some key -> key <> EmptyString ->
  fst (run net store (handleBuiltWithJson cfg path params)) =
  buildResponse
    match fst (run net store (read_response (net (request_url cfg key path params)))) with
    | Ok data => data
    | Failed error => error
    end.
Proof.
  intros Hkey Hne. unfold handleBuiltWithJson. rewrite run_bind.
  rewrite (run_request_keyed cfg net store _ _ key Hkey Hne). cbn [fst snd].
  destruct (fst (run net store (read_response _))); reflexivity.
Qed.

Lemma domainLookup_failure (net : Url -> FetchOutcome) (input : value) (key : string)
    (error : value) :
  currentApiKey cfg store = Some key -> key <> EmptyString ->
  fst (run net store
         (read_response (net (request_url cfg key "v22/api.json" (domainLookupParams input)))))
    = Failed error ->
  fst (run net store (domainLookup cfg input)) = buildResponse error.
Proof.
  intros Hkey Hne Hf. unfold domainLookup. rewrite run_bind.
  rewrite (run_request_keyed cfg net store _ _ key Hkey Hne). cbn [fst snd].
  rewrite Hf. reflexivity.
Qed.

(** X6.  Every registered tool surfaces an upstream failure as its payload:
    when each call is rejected, answered with a body that is not JSON, or
    answered with a status outside 200 to 299, the tool returns the text
    envelope of the corresponding error object.  When each call is answered
    with a JSON body and a status from 200 to 299, every tool but
    domain-lookup returns the envelope of that body, unchanged. *)
Theorem tools_surface_failures_and_pass_bodies :
  forall (outcome : FetchOutcome) (tool : Tool) (input : value) (key : string),
    In tool (server_tools (registered cfg)) ->
    currentApiKey cfg store = Some key ->
    key <> EmptyString ->
    (forall e, outcome = FetchRejected e ->
       fst (run (fun _ => outcome) store (tool_callback tool input)) =
       buildResponse (Obj [("error", Str "Failed to reach BuiltWith API.");
                           ("details", or_else (message e) (Str (error_string e)))])) /\
    (forall status, outcome = FetchResolved status None ->
       fst (run (fun _ => outcome) store (tool_callback tool input)) =
       buildResponse (Obj [("error", Str "BuiltWith API did not return JSON.");
                           ("status", Num status)])) /\
    (forall status data, outcome = FetchResolved status (Some data) ->
       is_ok status = false ->
       fst (run (fun _ => outcome) store (tool_callback tool input)) =
       buildResponse (Obj [("error", Str "BuiltWith API error.");
                           ("status", Num status); ("data", data)])) /\
    (forall status data, outcome = FetchResolved status (Some data) ->
       is_ok status = true ->
       tool_name tool <> "domain-lookup" ->
       fst (run (fun _ => outcome) store (tool_callback tool input)) = buildResponse data).
Proof.
  intros outcome tool input key Hin Hkey Hne. simpl in Hin.
  destruct Hin as [<- | Hin].
  { cbn [tool_callback tool_name].
    repeat split.
    - intros e ->. apply (domainLookup_failure _ input key _ Hkey Hne). reflexivity.
    - intros status ->. apply (domainLookup_failure _ input key _ Hkey Hne). reflexivity.
    - intros status data -> Hs. apply (domainLookup_failure _ input key _ Hkey Hne).
      simpl. rewrite Hs. reflexivity.
    - intros status data _ _ H. now contradiction H. }
  repeat (destruct Hin as [<- | Hin];
    [ cbn [tool_callback tool_name]; repeat split;
      [ intros e ->
      | intros status ->
      | intros status data -> Hs
      | intros status data -> Hs _ ];
      rewrite (handle_result _ _ _ key Hkey Hne); simpl; try rewrite Hs; reflexivity |]).
  contradiction.
Qed.

(** X7.  Looking a tool up by name in what the server has registered finds
    a tool exactly when one of that name is registered, and then finds that
    very registration: the fourteen names are pairwise distinct. *)
Theorem lookup_by_name_finds_the_registration :
  forall (name : string) (tool : Tool),
    (find (fun t => String.eqb (tool_name t) name) (server_tools (registered cfg)) = Some tool <->
     In tool (server_tools (registered cfg)) /\ tool_name tool = name) /\
    NoDup (map tool_name (server_tools (registered cfg))) /\
    length (server_tools (registered cfg)) = 14.
Proof.
  intros name tool. split; [| split].
  - split.
    + intros H. apply find_some in H as [Hin Heq]. apply String.eqb_eq in Heq. auto.
    + intros [Hin <-]. simpl in Hin.
      repeat (destruct Hin as [<- | Hin]; [reflexivity |]). contradiction.
  - simpl. repeat constructor; simpl; intuition discriminate.
  - reflexivity.
Qed.

End ToolCoverage.

Lemma tools_surface_failures_example :
  fst (Async.run (fun _ => Async.FetchResolved 503 None) Examples.alice_store
         (Upstream.domainLookup Examples.cfg (Js.Obj [("domain", Js.Str "example.com")]))) =
  Upstream.buildResponse
    (Js.Obj [("error", Js.Str "BuiltWith API did not return JSON."); ("status", Js.Num 503)]).
Proof.
  refine (proj1 (proj2 (tools_surface_failures_and_pass_bodies Examples.cfg
            Examples.alice_store (Async.FetchResolved 503 None)
            {| Registry.tool_name := "domain-lookup";
               Registry.tool_description :=
                 "Returns the live web technologies used on the root domain name.";
               Registry.tool_schema :=
                 [("domain", Registry.Zod Registry.ZodString);
                  ("liveOnly", Registry.Zod (Registry.ZodOptional Registry.ZodBoolean))];
               Registry.tool_callback := Upstream.domainLookup Examples.cfg |}
            (Js.Obj [("domain", Js.Str "example.com")]) "alice-key-0001" _ _ _)) 503%Z _).
  - simpl. left. reflexivity.
  - reflexivity.
  - discriminate.
  - reflexivity.
Defined.

(* ===================================================================== *)
(** ** Further properties: schemas, prompts and routes *)
(* ===================================================================== *)

Section CatalogCoverage.
Import Js Async Upstream Registry Http Server Spec Coverage Prompts.

Lemma lookup_rendered (k : string) (f : SchemaField) (fields : Schema) :
  NoDup (map fst fields) ->
  In (k, f) fields ->
  lookup k (map (fun kv => (fst kv, Str (render_field (snd kv)))) fields)
    = Some (Str (render_field f)).
Proof.
  induction fields as [| [k' f'] fields IH]; simpl; [contradiction |].
  intros Hnd Hin. inversion Hnd as [| ? ? Hk Hnd']; subst.
  destruct Hin as [[= -> ->] | Hin].
  - now rewrite String.eqb_refl.
  - destruct (String.eqb_spec k' k) as [-> | Hne]; [| now apply IH].
    exfalso. apply Hk. apply in_map_iff. exists (k, f). auto.
Qed.

(** X8.  For a schema object (distinct field names), [zodSchemaToJson]
    returns an object with the same field names in the same order, each
    holding the summary string of its field; for a missing schema it
    returns the empty object. *)
Theorem zodSchemaToJson_keeps_the_fields :
  forall schema : Schema,
    NoDup (map fst schema) ->
    zodSchemaToJson None = Obj [] /\
    exists props,
      zodSchemaToJson (Some schema) = Obj props /\
      map fst props = map fst schema /\
      forall k f, In (k, f) schema ->
                  member (zodSchemaToJson (Some schema)) k = Str (render_field f).
Proof.
  intros schema Hnd. split; [reflexivity |].
  exists (map (fun kv => (fst kv, Str (render_field (snd kv)))) schema).
  assert (Hz : zodSchemaToJson (Some schema) =
               Obj (map (fun kv => (fst kv, Str (render_field (snd kv)))) schema)).
  { unfold zodSchemaToJson. rewrite schema_loop by auto. reflexivity. }
  split; [exact Hz |]. split.
  - rewrite map_map. reflexivity.
  - intros k f Hin. rewrite Hz. simpl. now rewrite (lookup_rendered k f schema Hnd Hin).
Qed.

Lemma zodSchemaToJson_example :
  member (zodSchemaToJson
            (Some [("domain", Zod ZodString); ("liveOnly", Zod (ZodOptional ZodBoolean))]))
         "liveOnly" = Str "boolean (optional)".
Proof.
  destruct (zodSchemaToJson_keeps_the_fields
              [("domain", Zod ZodString); ("liveOnly", Zod (ZodOptional ZodBoolean))])
    as (_ & props & _ & _ & Hf).
  - repeat constructor; simpl; intuition discriminate.
  - apply (Hf "liveOnly" (Zod (ZodOptional ZodBoolean))). simpl. auto.
Defined.

(** X9.  Whatever the zod type, the summary of a field ends in
    " (optional)" exactly when the field accepts undefined: it is one of
    the printed type names, followed by that marker when optional and by
    nothing otherwise, and no printed type name ends in the marker. *)
Theorem optional_marker_is_exact :
  forall z : ZodType,
    (isOptional z = true ->
       exists ty, In ty printed_types /\ render_field (Zod z) = ty ++ " (optional)") /\
    (isOptional z = false -> In (render_field (Zod z)) printed_types) /\
    (forall ty ty', In ty printed_types -> In ty' printed_types ->
                    ty <> ty' ++ " (optional)").
Proof.
  intros z. split; [| split].
  - destruct z as [| | | i | i]; try discriminate; intros H;
      exists (toLowerCase (remove_first "Zod" (typeName i)));
      (split; [destruct i; vm_compute; auto 10 |]).
    + reflexivity.
    + unfold render_field. cbn [def_innerType isOptional] in *.
      rewrite H, orb_true_r. reflexivity.
  - destruct z as [| | | i | i]; try discriminate; try (intros _; vm_compute; auto 10; fail).
    intros H. unfold render_field. cbn [def_innerType isOptional] in *.
    rewrite H. destruct i; vm_compute; auto 10.
  - intros ty ty' H H'. simpl in H, H'.
    repeat (destruct H as [<- | H]; [repeat (destruct H' as [<- | H']; [discriminate |]);
                                     contradiction |]).
    contradiction.
Qed.

(** X10.  The prompt catalog that the discovery document surfaces agrees
    with the prompts registered with the server: entry by entry, in order,
    the same name, the same description, and as parameters what
    [zodSchemaToJson] gives for the registered schema; the five names are
    pairwise distinct. *)
Theorem prompt_catalog_agrees_with_registrations :
  forall cfg : Config.t,
    promptCatalog (registered cfg) =
      map (fun p => entry (prompt_name p) (prompt_description p)
                      (zodSchemaToJson (Some (prompt_schema p))))
          server_prompts /\
    member (discovery (registered cfg)) "prompts" = Arr (promptCatalog (registered cfg)) /\
    NoDup (map prompt_name server_prompts).
Proof.
  intros cfg. split; [reflexivity |]. split; [reflexivity |].
  simpl. repeat constructor; simpl; intuition discriminate.
Qed.

(** X11.  Every registered prompt answers any input with one user message
    of type text; the text names, as "the NAME tool", a tool that is
    registered, and holds the argument between double quotes exactly as
    given, without escaping. *)
Theorem prompts_name_registered_tools :
  forall (cfg : Config.t) (p : Prompt) (input : value),
    In p server_prompts ->
    exists text,
      prompt_callback p input = user_message text /\
      (exists tool,
          In tool (map tool_name (server_tools (registered cfg))) /\ names_tool text tool) /\
      (forall field, In field (map fst (prompt_schema p)) ->
                     exists before after,
                       text = before ++ quoted (member input field) ++ after).
Proof.
  intros cfg p input Hin. simpl in Hin.
  destruct Hin as [<- | [<- | [<- | [<- | [<- | []]]]]]; cbn [prompt_callback prompt_schema];
    (eexists; split; [reflexivity |]; split).
  - exists "domain-lookup". split; [simpl; auto 20 |].
    exists "Use ", (" to retrieve the live technologies used on " ++ quoted (member input "domain")
      ++ ". Summarize the tech stack by category (e.g. analytics, hosting, frameworks, CMS, CDN, widgets) and highlight any notable or unusual choices.").
    reflexivity.
  - intros field [<- | []].
    exists "Use the domain-lookup tool to retrieve the live technologies used on ",
           ". Summarize the tech stack by category (e.g. analytics, hosting, frameworks, CMS, CDN, widgets) and highlight any notable or unusual choices.".
    reflexivity.
  - exists "relationships-api". split; [simpl; auto 20 |].
    exists "Use ", (" to find websites related to " ++ quoted (member input "domain")
      ++ ". Summarize the relationships found, grouping them by type (e.g. shared analytics, shared hosting, same owner).").
    reflexivity.
  - intros field [<- | []].
    exists "Use the relationships-api tool to find websites related to ",
           ". Summarize the relationships found, grouping them by type (e.g. shared analytics, shared hosting, same owner).".
    reflexivity.
  - exists "recommendations-api". split; [simpl; auto 20 |].
    exists "Use ", (" to get technology recommendations for " ++ quoted (member input "domain")
      ++ ". Present the recommendations clearly, explaining what each suggested technology does and why it might be a good fit.").
    reflexivity.
  - intros field [<- | []].
    exists "Use the recommendations-api tool to get technology recommendations for ",
           ". Present the recommendations clearly, explaining what each suggested technology does and why it might be a good fit.".
    reflexivity.
  - exists "company-to-url". split; [simpl; auto 20 |].
    exists "First use ", (" to find domains associated with " ++ quoted (member input "company")
      ++ ". Then use the domain-lookup tool on the primary domain to analyze their tech stack. Provide a summary of the company's web presence and the technologies they use.").
    reflexivity.
  - intros field [<- | []].
    exists "First use the company-to-url tool to find domains associated with ",
           ". Then use the domain-lookup tool on the primary domain to analyze their tech stack. Provide a summary of the company's web presence and the technologies they use.".
    reflexivity.
  - exists "trust-api". split; [simpl; auto 20 |].
    exists "Use ", (" to look up the trust score for " ++ quoted (member input "domain")
      ++ ". Explain the trust score, what factors contribute to it, and any concerns or positive signals found.").
    reflexivity.
  - intros field [<- | []].
    exists "Use the trust-api tool to look up the trust score for ",
           ". Explain the trust score, what factors contribute to it, and any concerns or positive signals found.".
    reflexivity.
Qed.

Lemma prompts_example :
  exists text,
    user_message
      ("Use the trust-api tool to look up the trust score for "
       ++ quoted (Str "example.com")
       ++ ". Explain the trust score, what factors contribute to it, and any concerns or positive signals found.")
    = user_message text /\
    exists tool, names_tool text tool.
Proof.
  destruct (prompts_name_registered_tools Examples.cfg
              {| prompt_name := "check-domain-trust";
                 prompt_description := "Check the trust score of a domain";
                 prompt_schema := [("domain", Zod ZodString)];
                 prompt_callback := fun input =>
                   user_message
                     ("Use the trust-api tool to look up the trust score for "
                      ++ quoted (member input "domain")
                      ++ ". Explain the trust score, what factors contribute to it, and any concerns or positive signals found.") |}
              (Obj [("domain", Str "example.com")]))
    as (text & Htext & (tool & _ & Htool) & _).
  - simpl. do 4 right. left. reflexivity.
  - exists text. split; [exact Htext | exists tool; exact Htool].
Defined.

Lemma dispatch_cases (req : Request) :
  dispatch req =
  if String.eqb (toLowerCase (strip_slash (path req))) "/mcp"
  then (match method req with
        | GET | HEAD => Some DiscoveryHandler
        | _ => Some McpHandler
        end)
  else if String.eqb (toLowerCase (strip_slash (path req))) "/health"
       then (match method req with
             | GET | HEAD => Some HealthHandler
             | _ => None
             end)
       else None.
Proof.
  unfold dispatch, routes, matches_path, handles_method. simpl.
  destruct (String.eqb (toLowerCase (strip_slash (path req))) "/mcp") eqn:E1;
    destruct (String.eqb (toLowerCase (strip_slash (path req))) "/health") eqn:E2;
    destruct (method req); reflexivity.
Qed.

(** X12.  The routes, behind the body parser.  A request gets to the MCP
    handler exactly when the body parser handed it on, its path is /mcp (in
    any letter case, with or without one trailing slash) and its method is
    neither GET nor HEAD; GET and HEAD on /mcp then get to the discovery
    handler, GET and HEAD on /health to the health handler.  A session is
    started exactly when the request got to the MCP handler and its origin
    was admitted; every other request is answered at once and leaves the
    running sessions as they are, and one the body parser refused is
    answered with the status of the parser's error. *)
Theorem routes_behind_the_body_parser :
  forall (cfg : Config.t) (st : State) (w : World) (body : BodyOutcome) (req : Request),
    (route_of body req = Some McpHandler <->
     body = BodyAccepted /\
     toLowerCase (strip_slash (path req)) = "/mcp" /\
     method req <> GET /\ method req <> HEAD) /\
    (route_of body req = Some DiscoveryHandler <->
     body = BodyAccepted /\
     toLowerCase (strip_slash (path req)) = "/mcp" /\
     (method req = GET \/ method req = HEAD)) /\
    (route_of body req = Some HealthHandler <->
     body = BodyAccepted /\
     toLowerCase (strip_slash (path req)) = "/health" /\
     (method req = GET \/ method req = HEAD)) /\
    (tasks (receive cfg st w body req) <> tasks w <->
     route_of body req = Some McpHandler /\ validateOrigin cfg req = OriginAdmitted) /\
    (~ (route_of body req = Some McpHandler /\ validateOrigin cfg req = OriginAdmitted) ->
     tasks (receive cfg st w body req) = tasks w /\
     exists status answer,
       log (receive cfg st w body req) =
       (log w ++ [(length (arrived w), EvRespond status answer)])%list) /\
    (forall status,
        body = BodyRefused status ->
        log (receive cfg st w body req) =
        (log w ++ [(length (arrived w), EvRespond status Undefined)])%list).
Proof.
  intros cfg st w body req.
  pose proof (dispatch_cases req) as Hd.
  assert (Hroutes :
    (dispatch req = Some McpHandler <->
       toLowerCase (strip_slash (path req)) = "/mcp" /\
       method req <> GET /\ method req <> HEAD) /\
    (dispatch req = Some DiscoveryHandler <->
       toLowerCase (strip_slash (path req)) = "/mcp" /\
       (method req = GET \/ method req = HEAD)) /\
    (dispatch req = Some HealthHandler <->
       toLowerCase (strip_slash (path req)) = "/health" /\
       (method req = GET \/ method req = HEAD))).
  { split; [| split];
      rewrite Hd;
      (destruct (String.eqb_spec (toLowerCase (strip_slash (path req))) "/mcp") as [E | E];
       [| destruct (String.eqb_spec (toLowerCase (strip_slash (path req))) "/health")
            as [E' | E']]);
      destruct (method req) eqn:Em;
      (split; intros H;
       first [ discriminate | reflexivity
             | solve [intuition (congruence || discriminate)] ]). }
  destruct Hroutes as (Hmcp & Hdisc & Hhealth).
  assert (Hstart :
    forall r : Request,
      (dispatch r = Some McpHandler /\ validateOrigin cfg r = OriginAdmitted ->
       tasks (arrive cfg st w r) <> tasks w) /\
      (~ (dispatch r = Some McpHandler /\ validateOrigin cfg r = OriginAdmitted) ->
       tasks (arrive cfg st w r) = tasks w /\
       exists status answer,
         log (arrive cfg st w r) =
         (log w ++ [(length (arrived w), EvRespond status answer)])%list)).
  { intros r. unfold arrive.
    destruct (dispatch r) as [[| |] |]; cbn [tasks log];
      try (split; [intros [Hx _]; discriminate
                  | intros _; split; [reflexivity | eexists _, _; reflexivity]]).
    destruct (validateOrigin cfg r) as [| status answer].
    - match goal with
      | |- context [advance ?c ?rid ?m] => destruct (advance c rid m) as [cont evs]
      end.
      cbn [tasks log]. split.
      + intros _ Heq. apply (f_equal (@length Task)) in Heq.
        rewrite length_app in Heq. simpl in Heq. lia.
      + intros Hn. exfalso. apply Hn. split; reflexivity.
    - cbn [tasks log]. split.
      + intros [_ Hx]; discriminate.
      + intros _. split; [reflexivity | eexists _, _; reflexivity]. }
  destruct body as [| refused]; cbn [route_of receive tasks log].
  - split; [| split; [| split; [| split; [| split]]]].
    + rewrite Hmcp. tauto.
    + rewrite Hdisc. tauto.
    + rewrite Hhealth. tauto.
    + split; [| apply (Hstart req)].
      intros Hne.
      destruct (dispatch req) as [[| |] |] eqn:Hr;
        try (exfalso; apply Hne;
             apply (proj2 (Hstart req)); rewrite Hr; intros [Hx _]; discriminate).
      destruct (validateOrigin cfg req) as [| status answer] eqn:Hv; [split; reflexivity |].
      exfalso; apply Hne.
      apply (proj2 (Hstart req)); rewrite Hr, Hv; intros [_ Hx]; discriminate.
    + apply (Hstart req).
    + intros status Hx; discriminate.
  - split; [| split; [| split; [| split; [| split]]]].
    + split; [discriminate | intros [Hx _]; discriminate].
    + split; [discriminate | intros [Hx _]; discriminate].
    + split; [discriminate | intros [Hx _]; discriminate].
    + split; [intros Hne; exfalso; apply Hne; reflexivity | intros [Hx _]; discriminate].
    + intros _. split; [reflexivity | eexists _, _; reflexivity].
    + intros status [= <-]. reflexivity.
Qed.

End CatalogCoverage.

(* ===================================================================== *)
(** ** Further properties: the two entry points *)
(* ===================================================================== *)

Section LegacyCoverage.
Import Js Async Upstream Registry Http Server Spec Coverage.

Variable env : Config.Env.

Hypothesis default_host :
  Config.env_BUILTWITH_API_HOSTNAME env = None \/
  Config.env_BUILTWITH_API_HOSTNAME env = Some EmptyString.

Lemma default_host_name : Config.BUILTWITH_API_HOSTNAME (Config.load env) = "api.builtwith.com".
Proof. simpl. destruct default_host as [-> | ->]; reflexivity. Qed.

Lemma legacy_request_same (net : Url -> FetchOutcome) (k path : string) (params : value) :
  Config.env_BUILTWITH_API_KEY env = Some k -> k <> EmptyString ->
  run net None (Legacy.requestBuiltWithJson (Some k) path params) =
  run net None (requestBuiltWithJson (Config.load env) path params).
Proof.
  intros Hk Hne.
  assert (Hcur : currentApiKey (Config.load env) None = Some k).
  { simpl. rewrite Hk. destruct k; [contradiction | reflexivity]. }
  rewrite (run_request_keyed (Config.load env) net None path params k Hcur Hne).
  assert (Hurl : request_url (Legacy.config (Some k)) k path params =
                 request_url (Config.load env) k path params).
  { unfold request_url. rewrite default_host_name. reflexivity. }
  unfold Legacy.requestBuiltWithJson. destruct k as [| c r]; [contradiction |].
  cbn [run]. rewrite Hurl.
  pose proof (run_read_response net None
                (net (request_url (Config.load env) (String c r) path params))) as Hnil.
  destruct (run net None (read_response _)) as [a tr]. cbn [fst snd] in *. now subst.
Qed.

Lemma legacy_handle_same (net : Url -> FetchOutcome) (k path : string) (params : value) :
  Config.env_BUILTWITH_API_KEY env = Some k -> k <> EmptyString ->
  run net None (Legacy.handleBuiltWithJson (Some k) path params) =
  run net None (handleBuiltWithJson (Config.load env) path params).
Proof.
  intros Hk Hne. unfold Legacy.handleBuiltWithJson, handleBuiltWithJson.
  rewrite !run_bind, (legacy_request_same net k path params Hk Hne). reflexivity.
Qed.

Lemma legacy_domainLookup_same (net : Url -> FetchOutcome) (k : string) (input : value) :
  Config.env_BUILTWITH_API_KEY env = Some k -> k <> EmptyString ->
  run net None (Legacy.domainLookup (Some k) input) =
  run net None (domainLookup (Config.load env) input).
Proof.
  intros Hk Hne. unfold Legacy.domainLookup, domainLookup.
  destruct k as [| c r] eqn:Ek; [contradiction |]. rewrite <- Ek in *.
  rewrite !run_bind, (legacy_request_same net k _ _ Hk Hne). reflexivity.
Qed.

Lemma legacy_missing (key : option string) :
  key = None \/ key = Some EmptyString ->
  forall net path params input,
    run net None (Legacy.handleBuiltWithJson key path params)
      = (buildResponse Legacy.missingKey, []) /\
    run net None (Legacy.domainLookup key input) = (Legacy.missingKeyResponse, []).
Proof. intros [-> | ->]; split; reflexivity. Qed.

(** X13.  The stdio-only entry point and the dual-transport one, started
    from the same environment with the default host name, register the same
    fourteen tool names with the same schemas in the same order.  Served
    over stdio (no per-request store) with a key in the environment, each
    tool behaves the same in both: the same network call and the same
    result, whatever the input and the upstream's answer.  Without a key
    neither makes a network call and both return an error envelope. *)
Theorem stdio_entry_points_agree :
  length (Legacy.tools (Config.env_BUILTWITH_API_KEY env))
    = length (server_tools (registered (Config.load env))) /\
  forall old new,
    In (old, new) (combine (Legacy.tools (Config.env_BUILTWITH_API_KEY env))
                           (server_tools (registered (Config.load env)))) ->
    tool_name old = tool_name new /\
    tool_schema old = tool_schema new /\
    (forall k, Config.env_BUILTWITH_API_KEY env = Some k -> k <> EmptyString ->
       forall net input,
         run net None (tool_callback old input) = run net None (tool_callback new input)) /\
    (Config.env_BUILTWITH_API_KEY env = None \/
     Config.env_BUILTWITH_API_KEY env = Some EmptyString ->
       forall net input,
         run net None (tool_callback new input) = (buildResponse authMissing, []) /\
         snd (run net None (tool_callback old input)) = [] /\
         (fst (run net None (tool_callback old input)) = Legacy.missingKeyResponse \/
          fst (run net None (tool_callback old input)) = buildResponse Legacy.missingKey)).
Proof.
  split; [reflexivity |].
  intros old new Hin.
  assert (Hnokey : Config.env_BUILTWITH_API_KEY env = None \/
                   Config.env_BUILTWITH_API_KEY env = Some EmptyString ->
                   currentApiKey (Config.load env) None = None \/
                   currentApiKey (Config.load env) None = Some EmptyString).
  { intros [E | E]; left; simpl; rewrite E; reflexivity. }
  unfold Legacy.tools, Legacy.registerJsonTool in Hin.
  cbn [app combine registered registerTools registerPrompts registerJsonTool server_tool
       catalog_push server_tools initial] in Hin.
  destruct Hin as [Heq | Hin].
  { injection Heq as <- <-. cbn [tool_name tool_schema tool_callback].
    split; [reflexivity |]. split; [reflexivity |]. split.
    - intros k Hk Hne net input. rewrite Hk. now apply legacy_domainLookup_same.
    - intros Hmiss net input. split; [| split].
      + apply domainLookup_missing. auto.
      + now rewrite (proj2 (legacy_missing _ Hmiss net EmptyString Undefined input)).
      + left. now rewrite (proj2 (legacy_missing _ Hmiss net EmptyString Undefined input)). }
  repeat (destruct Hin as [Heq | Hin];
    [ injection Heq as <- <-; cbn [tool_name tool_schema tool_callback];
      split; [reflexivity |]; split; [reflexivity |]; split;
      [ intros k Hk Hne net input; rewrite Hk; now apply legacy_handle_same
      | intros Hmiss net input; split; [| split];
        [ apply handle_missing; auto
        | now rewrite (proj1 (legacy_missing _ Hmiss net _ _ input))
        | right; now rewrite (proj1 (legacy_missing _ Hmiss net _ _ input)) ] ] |]).
  contradiction.
Qed.

End LegacyCoverage.

Lemma stdio_entry_points_example :
  Async.run (Examples.answers Examples.two_paths) None
    (Legacy.domainLookup (Some "process-key-01") (Js.Obj [("domain", Js.Str "example.com")])) =
  Async.run (Examples.answers Examples.two_paths) None
    (Upstream.domainLookup
       (Config.load {| Config.env_BUILTWITH_API_KEY := Some "process-key-01";
                       Config.env_BUILTWITH_API_HOSTNAME := None;
                       Config.env_MCP_ALLOWED_ORIGINS := None |})
       (Js.Obj [("domain", Js.Str "example.com")])).
Proof.
  refine (proj1 (proj2 (proj2 (proj2 (stdio_entry_points_agree
            {| Config.env_BUILTWITH_API_KEY := Some "process-key-01";
               Config.env_BUILTWITH_API_HOSTNAME := None;
               Config.env_MCP_ALLOWED_ORIGINS := None |} (or_introl eq_refl))
            {| Registry.tool_name := "domain-lookup";
               Registry.tool_description :=
                 "Returns the live web technologies use on the root domain name.";
               Registry.tool_schema :=
                 [("domain", Registry.Zod Registry.ZodString);
                  ("liveOnly", Registry.Zod (Registry.ZodOptional Registry.ZodBoolean))];
               Registry.tool_callback := Legacy.domainLookup (Some "process-key-01") |}
            {| Registry.tool_name := "domain-lookup";
               Registry.tool_description :=
                 "Returns the live web technologies used on the root domain name.";
               Registry.tool_schema :=
                 [("domain", Registry.Zod Registry.ZodString);
                  ("liveOnly", Registry.Zod (Registry.ZodOptional Registry.ZodBoolean))];
               Registry.tool_callback :=
                 Upstream.domainLookup
                   (Config.load {| Config.env_BUILTWITH_API_KEY := Some "process-key-01";
                                   Config.env_BUILTWITH_API_HOSTNAME := None;
                                   Config.env_MCP_ALLOWED_ORIGINS := None |}) |}
            _))) "process-key-01" eq_refl _ (Examples.answers Examples.two_paths)
            (Js.Obj [("domain", Js.Str "example.com")])).
  - simpl. left. reflexivity.
  - discriminate.
Defined.

(* ===================================================================== *)
(** ** Further properties: sessions on the event loop *)
(* ===================================================================== *)

Section LoopCoverage.
Import Js Async Upstream Registry Http Server Spec Coverage.

Variable cfg : Config.t.
Variable st : State.
Variable net : Url -> FetchOutcome.

(** Running to the next suspension leaves behind the first part of what the
    program leaves behind when it runs through. *)
Lemma advance_run ctx rid (m : Async.t unit) :
  snd (run net ctx m) =
  (map snd (snd (advance ctx rid m)) ++ pending net ctx (fst (advance ctx rid m)))%list.
Proof.
  induction m as [a | k IH | url k IH | k IH | e k IH]; simpl.
  - reflexivity.
  - apply IH.
  - destruct (run net ctx (k (net url))) as [a tr]. reflexivity.
  - reflexivity.
  - destruct (advance ctx rid k) as [m' evs]. destruct (run net ctx k) as [a tr].
    simpl in *. now rewrite IH.
Qed.

Lemma settle_pending ctx (m m' : Async.t unit) :
  settle net m = Some m' -> pending net ctx m = snd (run net ctx m').
Proof.
  destruct m; simpl; intros [= <-]; reflexivity.
Qed.

Lemma settle_finished ctx (m : Async.t unit) :
  settle net m = None -> pending net ctx m = [].
Proof.
  destruct m; simpl; try discriminate. reflexivity.
Qed.

Lemma filter_same_tag rid (evs : list (nat * Event)) :
  (forall e, In e evs -> fst e = rid) ->
  filter (fun e => Nat.eqb (fst e) rid) evs = evs.
Proof.
  induction evs as [| e evs IH]; simpl; intros H; [reflexivity |].
  rewrite (H e (or_introl eq_refl)), Nat.eqb_refl, IH; auto.
Qed.

Lemma In_replace_nth_other {A : Type} (i : nat) (x y : A) (l : list A) :
  In y (replace_nth i x l) -> y = x \/ exists j, j <> i /\ nth_error l j = Some y.
Proof.
  revert i. induction l as [| z l IH]; intros [| i]; simpl; try tauto.
  - intros [<- | H]; [now left | right].
    apply In_nth_error in H as [j Hj]. exists (S j). split; [discriminate | exact Hj].
  - intros [<- | H].
    + right. exists 0. split; [discriminate | reflexivity].
    + destruct (IH _ H) as [-> | (j & Hne & Hj)]; [now left | right].
      exists (S j). split; [congruence | exact Hj].
Qed.

Lemma map_replace_nth_same {A B : Type} (f : A -> B) (i : nat) (x old : A) (l : list A) :
  nth_error l i = Some old -> f x = f old ->
  map f (replace_nth i x l) = map f l.
Proof.
  revert i. induction l as [| z l IH]; intros [| i]; simpl; try discriminate.
  - intros [= ->] ->. reflexivity.
  - intros Hn Hf. now rewrite (IH i Hn Hf).
Qed.

Lemma distinct_positions (l : list Task) (i j : nat) (a b : Task) :
  NoDup (map task_request l) ->
  nth_error l i = Some a -> nth_error l j = Some b -> j <> i ->
  task_request b <> task_request a.
Proof.
  intros Hnd Hi Hj Hne Heq.
  apply Hne. apply (proj1 (NoDup_nth_error (map task_request l)) Hnd).
  - rewrite length_map. apply nth_error_Some. congruence.
  - rewrite (map_nth_error task_request _ _ Hj), (map_nth_error task_request _ _ Hi).
    now rewrite Heq.
Qed.

Lemma replace_nth_In_new {A : Type} (i : nat) (x old : A) (l : list A) :
  nth_error l i = Some old -> In x (replace_nth i x l).
Proof.
  revert i. induction l as [| z l IH]; intros [| i]; simpl; try discriminate; auto.
Qed.

Lemma replace_nth_In_other {A : Type} (i j : nat) (x y : A) (l : list A) :
  nth_error l j = Some y -> j <> i -> In y (replace_nth i x l).
Proof.
  revert i j. induction l as [| z l IH]; intros i j; destruct i, j; simpl;
    try discriminate; try tauto; intros Hj Hne.
  - right. eapply nth_error_In; eauto.
  - injection Hj as <-. now left.
  - right. apply (IH i j); auto.
Qed.

Lemma isolated_boot : isolated cfg st net boot.
Proof. split; [constructor | intros ? []]. Qed.

Lemma isolated_arrive (w : World) (req : Request) :
  bounded w -> isolated cfg st net w -> isolated cfg st net (arrive cfg st w req).
Proof.
  intros [Hbt Hbl] [Hnd Hiso].
  assert (Hold : forall n r, nth_error (arrived w) n = Some r ->
                   nth_error (arrived w ++ [req]) n = Some r).
  { intros n r H. rewrite nth_error_app1; [exact H |].
    apply nth_error_Some. congruence. }
  assert (Hquiet : forall evs task,
            (forall e, In e evs -> fst e = length (arrived w)) ->
            In task (tasks w) ->
            map snd (filter (fun e => Nat.eqb (fst e) (task_request task)) (log w ++ evs))
              = events_of (task_request task) w).
  { intros evs task Htag Hin.
    rewrite filter_app, (filter_other_tag (task_request task) evs), app_nil_r;
      [reflexivity |].
    intros e He. rewrite (Htag e He). apply Hbt in Hin. lia. }
  assert (Hresp : forall status body,
            isolated cfg st net
              {| current := current w; tasks := tasks w;
                 arrived := arrived w ++ [req];
                 log := log w ++ [(length (arrived w), EvRespond status body)] |}).
  { intros status body. split; [exact Hnd |]. cbn [tasks arrived].
    intros task Hin. destruct (Hiso task Hin) as (r & H1 & H2 & H3 & H4 & H5).
    exists r. repeat split; auto.
    unfold events_of. cbn [log]. rewrite Hquiet; auto.
    intros e [<- | []]. reflexivity. }
  unfold arrive.
  destruct (dispatch req) as [[| |] |] eqn:Ed; try apply Hresp.
  destruct (validateOrigin cfg req) eqn:Ev; [| apply Hresp].
  cbn [current with_current].
  pose proof (advance_run (store_of req) (length (arrived w)) (session st req)) as Hrun.
  pose proof (advance_tags (store_of req) (length (arrived w)) (session st req)) as Htag.
  unfold store_of in Hrun at 2 3, Htag.
  destruct (advance _ (length (arrived w)) (session st req)) as [cont evs].
  cbn [fst snd] in *.
  split; cbn [tasks arrived log].
  - rewrite map_app. cbn [map task_request].
    apply NoDup_app; [exact Hnd | repeat constructor; intros [] |].
    intros rid Hrid [<- | []]. apply in_map_iff in Hrid as (task & Heq & Hin).
    apply Hbt in Hin. lia.
  - intros task Hin. apply in_app_or in Hin as [Hin | [<- | []]].
    + destruct (Hiso task Hin) as (r & H1 & H2 & H3 & H4 & H5).
      exists r. repeat split; auto.
      unfold events_of. cbn [log]. rewrite Hquiet; auto.
    + exists req. cbn [task_request task_context task_cont].
      rewrite nth_error_app2, Nat.sub_diag by lia.
      repeat split; auto.
      unfold events_of. cbn [log].
      rewrite filter_app, (filter_same_tag _ evs Htag),
        (filter_other_tag (length (arrived w)) (log w)).
      * cbn [app]. symmetry. exact Hrun.
      * intros e He. apply Hbl in He. lia.
Qed.

Lemma isolated_resume (w : World) (i : nat) :
  isolated cfg st net w -> isolated cfg st net (resume net w i).
Proof.
  intros [Hnd Hiso]. unfold resume.
  destruct (nth_error (tasks w) i) as [task |] eqn:En; [| split; assumption].
  destruct (settle net (task_cont task)) as [m |] eqn:Es; [| split; assumption].
  cbn [current with_current].
  pose proof (advance_run (task_context task) (task_request task) m) as Hrun.
  pose proof (advance_tags (task_context task) (task_request task) m) as Htag.
  destruct (advance (task_context task) (task_request task) m) as [cont evs].
  cbn [fst snd] in *.
  split; cbn [tasks arrived log].
  - rewrite (map_replace_nth_same task_request i _ task); auto.
  - intros t Hin. apply In_replace_nth_other in Hin as [-> | (j & Hne & Hj)].
    + destruct (Hiso task (nth_error_In _ _ En)) as (r & H1 & H2 & H3 & H4 & H5).
      exists r. cbn [task_request task_context task_cont]. repeat split; auto.
      unfold events_of. cbn [log].
      rewrite filter_app, (filter_same_tag _ evs Htag), map_app, <- app_assoc, <- Hrun.
      rewrite <- (settle_pending (task_context task) _ _ Es). exact H5.
    + destruct (Hiso t (nth_error_In _ _ Hj)) as (r & H1 & H2 & H3 & H4 & H5).
      exists r. repeat split; auto.
      unfold events_of. cbn [log].
      rewrite filter_app, (filter_other_tag (task_request t) evs), app_nil_r; [exact H5 |].
      intros e He. rewrite (Htag e He).
      intros Heq. exact (distinct_positions _ _ _ _ _ Hnd En Hj Hne (eq_sym Heq)).
Qed.

Lemma isolated_exec (schedule : list Label) :
  isolated cfg st net (exec cfg st net boot schedule).
Proof.
  induction schedule as [| l ls IH] using rev_ind; [apply isolated_boot |].
  rewrite exec_app.
  change (exec cfg st net ?w [l]) with (step cfg st net w l).
  destruct l as [req | i]; cbn [step].
  - apply isolated_arrive; [apply bounded_exec, bounded_boot | exact IH].
  - apply isolated_resume, IH.
Qed.

Lemma served_exec (schedule : list Label) : served cfg (exec cfg st net boot schedule).
Proof.
  induction schedule as [| l ls IH] using rev_ind.
  - intros rid req H. destruct rid; discriminate.
  - rewrite exec_app.
    change (exec cfg st net ?w [l]) with (step cfg st net w l).
    set (w := exec cfg st net boot ls) in *.
    destruct l as [req | i]; cbn [step]; intros rid r Hr Hd Hv.
    + destruct (arrive_shape cfg st w req) as (Ea & _ & evs & news & El & Et & _ & _).
      rewrite Ea in Hr.
      destruct (Nat.lt_ge_cases rid (length (arrived w))) as [Hlt | Hge].
      * rewrite nth_error_app1 in Hr by exact Hlt.
        destruct (IH rid r Hr Hd Hv) as (task & Hin & Hid).
        exists task. split; [rewrite Et; apply in_or_app; now left | exact Hid].
      * assert (rid = length (arrived w)) as ->.
        { assert (Hlt : rid < length (arrived w ++ [req]))
            by (apply nth_error_Some; congruence).
          rewrite length_app in Hlt. simpl in Hlt. lia. }
        rewrite nth_error_app2, Nat.sub_diag in Hr by lia. injection Hr as <-.
        unfold arrive. rewrite Hd, Hv.
        match goal with
        | |- context [advance ?c ?n ?m] => destruct (advance c n m) as [cont evs']
        end.
        eexists. split; [cbn [tasks]; apply in_or_app; right; left; reflexivity |].
        reflexivity.
    + destruct (resume_shape net w i) as (Ea & _ & _).
      rewrite Ea in Hr. destruct (IH rid r Hr Hd Hv) as (task & Hin & Hid).
      unfold resume.
      destruct (nth_error (tasks w) i) as [task' |] eqn:En; [| eauto].
      destruct (settle net (task_cont task')) as [m |]; [| eauto].
      destruct (advance _ _ m) as [cont evs']. cbn [tasks].
      apply In_nth_error in Hin as [j Hj].
      destruct (Nat.eq_dec j i) as [-> | Hne].
      * rewrite En in Hj. injection Hj as <-.
        eexists. split; [eapply replace_nth_In_new; exact En | exact Hid].
      * exists task. split; [| exact Hid].
        eapply replace_nth_In_other; eauto.
Qed.

End LoopCoverage.

Section SessionCoverage.
Import Js Async Upstream Registry Http Server Spec Coverage.

Variable cfg : Config.t.
Variable net : Url -> FetchOutcome.

(** X15.  One invocation of a registered tool issues at most one upstream
    call, whatever the store it runs in, its input and the answers of the
    upstream: the callback leaves behind nothing at all, or one call and
    nothing else. *)
Theorem tool_invocation_calls_at_most_once :
  forall (store : option Store) (tool : Tool) (input : value),
    In tool (server_tools (registered cfg)) ->
    (snd (run net store (tool_callback tool input)) = [] \/
     exists url, snd (run net store (tool_callback tool input)) = [EvFetch url]) /\
    length (filter is_fetch (snd (run net store (tool_callback tool input)))) <= 1.
Proof.
  intros store tool input Hin.
  assert (H : snd (run net store (tool_callback tool input)) = [] \/
              exists url, snd (run net store (tool_callback tool input)) = [EvFetch url]).
  { destruct (currentApiKey cfg store) as [[| c r] |] eqn:Ek.
    - left.
      assert (H : run net store (tool_callback tool input) = (buildResponse authMissing, [])).
      { simpl in Hin.
        repeat (destruct Hin as [<- | Hin];
                [first [apply domainLookup_missing | apply handle_missing]; now right |]).
        contradiction. }
      now rewrite H.
    - right. simpl in Hin.
      destruct Hin as [<- | Hin];
        [eexists; apply (domainLookup_trace cfg net store input _ Ek); discriminate |].
      repeat (destruct Hin as [<- | Hin];
              [eexists; apply (handle_trace cfg net store _ _ _ input _ Ek); discriminate |]).
      contradiction.
    - left.
      assert (H : run net store (tool_callback tool input) = (buildResponse authMissing, [])).
      { simpl in Hin.
        repeat (destruct Hin as [<- | Hin];
                [first [apply domainLookup_missing | apply handle_missing]; now left |]).
        contradiction. }
      now rewrite H. }
  split; [exact H |].
  destruct H as [-> | (url & ->)]; simpl; lia.
Qed.

(** X16.  A request of the MCP route that carries no usable bearer
    credential is served with the process-wide key when there is one: under
    every schedule, every upstream call issued on its behalf carries the
    fallback key as KEY. *)
Theorem fallback_key_serves_anonymous_requests :
  forall (schedule : list Label) (rid : nat) (req : Request) (k : string) (url : Url),
    nth_error (arrived (exec cfg (registered cfg) net boot schedule)) rid = Some req ->
    extractBearerApiKeyOptional req = None ->
    Config.BUILTWITH_API_KEY cfg = Some k ->
    In (rid, EvFetch url) (log (exec cfg (registered cfg) net boot schedule)) ->
    lookup "KEY" (searchParams url) = Some k.
Proof.
  intros schedule rid req k url Hr Hnone Hk Hin.
  destruct (credentials_invariant cfg net schedule) as [_ Il].
  destruct (Il rid url Hin) as (r & Hr' & Hkey).
  rewrite Hr in Hr'. injection Hr' as <-.
  rewrite Hkey. unfold store_of, currentApiKey. rewrite Hnone. exact Hk.
Qed.

End SessionCoverage.

Lemma tool_invocation_example :
  In {| Registry.tool_name := "trends-api";
        Registry.tool_description := "Trends API JSON lookup for technology trend data.";
        Registry.tool_schema := [("tech", Registry.Zod Registry.ZodString)];
        Registry.tool_callback := fun input =>
          Upstream.handleBuiltWithJson Examples.cfg "trends/v6/api.json"
            (Registry.pick "tech" "TECH" input) |}
     (Registry.server_tools (Registry.registered Examples.cfg)) /\
  length
    (filter Spec.is_fetch
       (snd (Async.run (Examples.answers Examples.two_paths) Examples.alice_store
               (Upstream.handleBuiltWithJson Examples.cfg "trends/v6/api.json"
                  (Registry.pick "tech" "TECH" (Js.Obj [("tech", Js.Str "Shopify")])))))) <= 1.
Proof.
  assert (Hin :
    In {| Registry.tool_name := "trends-api";
          Registry.tool_description := "Trends API JSON lookup for technology trend data.";
          Registry.tool_schema := [("tech", Registry.Zod Registry.ZodString)];
          Registry.tool_callback := fun input =>
            Upstream.handleBuiltWithJson Examples.cfg "trends/v6/api.json"
              (Registry.pick "tech" "TECH" input) |}
       (Registry.server_tools (Registry.registered Examples.cfg))).
  { simpl. do 9 right. left. reflexivity. }
  split; [exact Hin |].
  exact (proj2 (tool_invocation_calls_at_most_once Examples.cfg
                  (Examples.answers Examples.two_paths) Examples.alice_store _
                  (Js.Obj [("tech", Js.Str "Shopify")]) Hin)).
Defined.

Lemma fallback_key_example :
  Js.lookup "KEY"
    (Async.searchParams
       {| Async.href := "https://upstream.test/trends/v6/api.json";
          Async.searchParams := [("KEY", "process-key-01"); ("TECH", "Shopify")] |})
  = Some "process-key-01".
Proof.
  apply (fallback_key_serves_anonymous_requests Coverage.cfg_with_key
           (Examples.answers Examples.no_paths)
           [Server.Arrive Coverage.anonymous; Server.Resume 0; Server.Resume 0]
           0 Coverage.anonymous "process-key-01"
           {| Async.href := "https://upstream.test/trends/v6/api.json";
              Async.searchParams := [("KEY", "process-key-01"); ("TECH", "Shopify")] |}).
  - reflexivity.
  - reflexivity.
  - reflexivity.
  - simpl. right. left. reflexivity.
Defined.

Section NormalizerCoverage.
Import Js Async Upstream Registry Http Server Spec Coverage.

Lemma or_else_idem (v : value) :
  or_else (or_else v (Str EmptyString)) (Str EmptyString) = or_else v (Str EmptyString).
Proof.
  unfold or_else. destruct (truthy v) eqn:E; [now rewrite E | reflexivity].
Qed.

(** X17.  Every record that [extractTechnologies] produces has exactly the
    fields Name, Description, Tag and Link, in this order, each holding a
    truthy value or the empty string (never null or undefined); the records
    are at most as many as the entries; and a record that is already flat
    is left as it is when flattened again. *)
Theorem flat_records_are_well_formed :
  forall (data record : value),
    In record (extractTechnologies data) ->
    (exists n d t l,
        record = Obj [("Name", n); ("Description", d); ("Tag", t); ("Link", l)] /\
        Forall (fun v => truthy v = true \/ v = Str EmptyString) [n; d; t; l]) /\
    flat_record record = record /\
    length (extractTechnologies data) <= length (technology_entries data).
Proof.
  intros data record Hin.
  pose proof (extractTechnologies_flat data) as Hflat.
  rewrite Hflat in Hin |- *.
  apply in_map_iff in Hin as (tech & <- & _).
  assert (Hv : forall v, truthy (or_else v (Str EmptyString)) = true \/
                         or_else v (Str EmptyString) = Str EmptyString).
  { intros v. unfold or_else. destruct (truthy v) eqn:E; auto. }
  split; [| split].
  - eexists _, _, _, _. split; [reflexivity |].
    repeat (apply Forall_cons; [apply Hv |]). apply Forall_nil.
  - unfold flat_record. simpl. now rewrite !or_else_idem.
  - rewrite length_map. apply filter_length_le.
Qed.

Lemma flat_records_example :
  flat_record (Obj [("Name", Str "Varnish"); ("Description", Str EmptyString);
                    ("Tag", Str EmptyString); ("Link", Str EmptyString)])
  = Obj [("Name", Str "Varnish"); ("Description", Str EmptyString);
         ("Tag", Str EmptyString); ("Link", Str EmptyString)].
Proof.
  refine (proj1 (proj2 (flat_records_are_well_formed Examples.two_paths _ _))).
  simpl. right. right. left. reflexivity.
Defined.

(** X18.  When its upstream call succeeds and the body holds at least one
    truthy technology entry, domain-lookup returns the text envelope of the
    array of flat records, one per truthy entry in order, and not the
    nothing-found marker. *)
Theorem domain_lookup_returns_the_records :
  forall (cfg : Config.t) (net : Url -> FetchOutcome) (store : option Store)
         (input : value) (key : string) (status : Z) (data : value),
    currentApiKey cfg store = Some key ->
    key <> EmptyString ->
    net (request_url cfg key "v22/api.json" (domainLookupParams input))
      = FetchResolved status (Some data) ->
    is_ok status = true ->
    existsb truthy (technology_entries data) = true ->
    fst (run net store (domainLookup cfg input)) =
      buildResponse (Arr (map flat_record (filter truthy (technology_entries data)))) /\
    fst (run net store (domainLookup cfg input)) <> buildResponse noTechnologies.
Proof.
  intros cfg net store input key status data Hkey Hne Hnet Hok Hsome.
  assert (Hrun : fst (run net store (domainLookup cfg input)) =
                 buildResponse (Arr (map flat_record (filter truthy (technology_entries data))))).
  { unfold domainLookup. rewrite run_bind.
    rewrite (run_request_keyed cfg net store _ _ key Hkey Hne), Hnet.
    rewrite (run_read_response_ok net store status data Hok). cbn [fst snd].
    rewrite extractTechnologies_flat.
    apply existsb_exists in Hsome as (tech & Hin & Ht).
    assert (Hin' : In tech (filter truthy (technology_entries data)))
      by (apply filter_In; auto).
    destruct (filter truthy (technology_entries data)); [contradiction | reflexivity]. }
  split; [exact Hrun |].
  rewrite Hrun.
  apply existsb_exists in Hsome as (tech & Hin & Ht).
  assert (Hin' : In tech (filter truthy (technology_entries data)))
    by (apply filter_In; auto).
  destruct (filter truthy (technology_entries data)) as [| t0 rest]; [contradiction |].
  unfold buildResponse, text_of. simpl stringify at 2.
  intros H. injection H as H.
  cbn [stringify map] in H.
  destruct rest; cbn in H; discriminate.
Qed.

Lemma domain_lookup_records_example :
  fst (run (Examples.answers Examples.two_paths) Examples.alice_store
         (domainLookup Examples.cfg (Obj [("domain", Str "example.com")]))) <>
  buildResponse noTechnologies.
Proof.
  refine (proj2 (domain_lookup_returns_the_records Examples.cfg
            (Examples.answers Examples.two_paths) Examples.alice_store
            (Obj [("domain", Str "example.com")]) "alice-key-0001" 200 Examples.two_paths
            _ _ _ _ _)).
  - reflexivity.
  - discriminate.
  - reflexivity.
  - reflexivity.
  - reflexivity.
Defined.

End NormalizerCoverage.

Section NoKeyCoverage.
Import Js Async Upstream Registry Http Server Spec Coverage.

Variable cfg : Config.t.
Variable net : Url -> FetchOutcome.

Lemma session_trace_silent (store : option Store) (req : Request) :
  currentApiKey cfg store = None ->
  filter is_fetch (snd (run net store (session (registered cfg) req))) = [].
Proof.
  intros Hnone. unfold session. cbn [run].
  destruct (call req) as [[name input] |]; [| reflexivity].
  destruct (find _ (server_tools (registered cfg))) as [tool |] eqn:Ef; [| reflexivity].
  apply find_some in Ef as [Hin _].
  assert (H : run net store (tool_callback tool input) = (buildResponse authMissing, [])).
  { simpl in Hin.
    repeat (destruct Hin as [<- | Hin];
            [first [apply domainLookup_missing | apply handle_missing]; now left |]).
    contradiction. }
  cbn [run]. rewrite run_bind, H. reflexivity.
Qed.

(** X19.  With no usable bearer credential on the request and no key in the
    environment, an admitted request of the MCP route never reaches the
    upstream: under every schedule, no network call is issued on its
    behalf. *)
Theorem without_a_key_nothing_reaches_the_upstream :
  forall (schedule : list Label) (rid : nat) (req : Request),
    nth_error (arrived (exec cfg (registered cfg) net boot schedule)) rid = Some req ->
    dispatch req = Some McpHandler ->
    validateOrigin cfg req = OriginAdmitted ->
    extractBearerApiKeyOptional req = None ->
    Config.BUILTWITH_API_KEY cfg = None ->
    filter is_fetch (events_of rid (exec cfg (registered cfg) net boot schedule)) = [] /\
    forall url, ~ In (rid, EvFetch url) (log (exec cfg (registered cfg) net boot schedule)).
Proof.
  intros schedule rid req Hr Hd Hv Hnone Hk.
  destruct (isolated_exec cfg (registered cfg) net schedule) as [_ Hiso].
  destruct (served_exec cfg (registered cfg) net schedule rid req Hr Hd Hv) as (task & Hin & Hid).
  destruct (Hiso task Hin) as (r & H1 & _ & _ & H4 & H5).
  rewrite Hid, Hr in H1. injection H1 as <-. rewrite Hid in H5.
  assert (Hcur : currentApiKey cfg (store_of req) = None).
  { unfold store_of, currentApiKey. rewrite Hnone. exact Hk. }
  pose proof (session_trace_silent (store_of req) req Hcur) as Hsilent.
  rewrite <- H5, filter_app in Hsilent. apply app_eq_nil in Hsilent as [Hnil _].
  split; [exact Hnil |].
  intros url Hlog.
  assert (Hev : In (EvFetch url) (filter is_fetch
                  (events_of rid (exec cfg (registered cfg) net boot schedule)))).
  { apply filter_In. split; [| reflexivity].
    unfold events_of. apply in_map_iff. exists (rid, EvFetch url).
    split; [reflexivity |]. apply filter_In. split; [exact Hlog |]. simpl.
    apply Nat.eqb_refl. }
  rewrite Hnil in Hev. contradiction.
Qed.

End NoKeyCoverage.

Lemma without_a_key_example :
  filter Spec.is_fetch
    (Server.events_of 0
       (Server.exec Examples.cfg (Registry.registered Examples.cfg)
          (Examples.answers Examples.two_paths) Server.boot
          [Server.Arrive Coverage.anonymous; Server.Resume 0; Server.Resume 0;
           Server.Resume 0])) = [].
Proof.
  exact (proj1 (without_a_key_nothing_reaches_the_upstream Examples.cfg
                  (Examples.answers Examples.two_paths)
                  [Server.Arrive Coverage.anonymous; Server.Resume 0; Server.Resume 0;
                   Server.Resume 0]
                  0 Coverage.anonymous eq_refl eq_refl eq_refl eq_refl eq_refl)).
Defined.
